(** * BIG-MAP Archive API client: record synchronisation

    A shallow embedding of [big_map_archive_api_client/client/api_client.py]
    (class [ArchiveAPIClient]) and of [update_a_published_record] from
    [big_map_archive_api_client/client/main.py], as it runs against that
    class.

    The archive is an external service: the connection, the clock and the
    local file system are parameters of the development.  A client method
    is a function from the client's state (the state of the outside world
    and the log of the requests sent so far) to a result, which is either
    the exception raised or the value returned, and a new state. *)

From stdpp Require Import gmap strings list fin_maps pretty.

Open Scope string_scope.
Open Scope list_scope.

Set Warnings "-register-all".

(** ** Data *)

(** A decoded JSON document, as [response.json()] returns it. *)
Inductive json :=
  | JNull
  | JBool (b : bool)
  | JNum (z : Z)
  | JStr (s : string)
  | JArr (l : list json)
  | JObj (m : gmap string json).

#[global] Instance json_inhabited : Inhabited json := populate JNull.

(** One file of an inventory: the dict [{'name': ..., 'checksum': ...}].
    Two such dicts are equal in Python when both entries are equal. *)
Record FileRecord := { name : string; checksum : string }.

#[global] Instance FileRecord_eq_dec : EqDecision FileRecord.
Proof. solve_decision. Defined.

Inductive Method := GET | POST | PUT | DELETE.

(** The body of a request: nothing, a JSON document ([json.dumps] of it),
    or the content of the local file at a path. *)
Inductive Payload :=
  | NoPayload
  | JsonPayload (j : json)
  | FilePayload (file_path : string).

Record Request := {
  method : Method;
  resource_path : string;
  payload : Payload
}.

(** A response: its status code and its body decoded as JSON, when the body
    is JSON. *)
Record Response := {
  status_code : Z;
  content : option json
}.

(** The exceptions the modelled code can raise. *)
Inductive Error :=
  | HTTPError (r : Response)
  | JSONDecodeError
  | KeyError (k : string)
  | TypeError
  | OSError (path : string).

(** [Response.raise_for_status] of the requests library raises for the
    client errors (4xx) and the server errors (5xx). *)
Definition is_error_status (r : Response) : bool :=
  (400 <=? status_code r)%Z && (status_code r <? 600)%Z.

(** The success statuses, as the specification has them: 2xx. *)
Definition is_success_status (r : Response) : bool :=
  (200 <=? status_code r)%Z && (status_code r <? 300)%Z.

(** [Response.ok]: the status is not an error status. *)
Definition ok (r : Response) : bool := negb (is_error_status r).

(** [d[k]] on a decoded document: only a dict can be indexed by a string,
    and the key has to be there. *)
Definition getitem (j : json) (k : string) : Error + json :=
  match j with
  | JObj m => match m !! k with
              | Some v => inr v
              | None => inl (KeyError k)
              end
  | _ => inl TypeError
  end.

(** [d[k] = v] on a decoded document. *)
Definition setitem (j : json) (k : string) (v : json) : Error + json :=
  match j with
  | JObj m => inr (JObj (<[k := v]> m))
  | _ => inl TypeError
  end.

(** A name or a checksum of the archive is a string: the inventories of
    this development hold strings.  Python would carry a key or a checksum
    of another type along; here such an entry is a [TypeError]. *)
Definition as_str (j : json) : Error + string :=
  match j with
  | JStr s => inr s
  | _ => inl TypeError
  end.

(** The body of the comprehension of [get_name_to_checksum_for_linked_files]:
    [{'name': entry['key'], 'checksum': entry['checksum']}]. *)
Definition linked_file_of_entry (entry : json) : Error + FileRecord :=
  match getitem entry "key" with
  | inl e => inl e
  | inr k =>
      match getitem entry "checksum" with
      | inl e => inl e
      | inr c =>
          match as_str k, as_str c with
          | inr k, inr c => inr {| name := k; checksum := c |}
          | inl e, _ => inl e
          | _, inl e => inl e
          end
      end
  end.

Fixpoint linked_files_of_entries (entries : list json) : Error + list FileRecord :=
  match entries with
  | [] => inr []
  | entry :: rest =>
      match linked_file_of_entry entry with
      | inl e => inl e
      | inr f =>
          match linked_files_of_entries rest with
          | inl e => inl e
          | inr fs => inr (f :: fs)
          end
      end
  end.

(** [for entry in entries]: a list is walked through; an empty dict or an
    empty string gives no entry; the keys of a dict and the characters of a
    string are strings, which [entry['key']] cannot index; the other values
    are not iterable. *)
Definition linked_files_of (entries : json) : Error + list FileRecord :=
  match entries with
  | JArr l => linked_files_of_entries l
  | JObj m => if decide (m = ∅) then inr [] else inl TypeError
  | JStr s => if decide (s = "") then inr [] else inl TypeError
  | _ => inl TypeError
  end.

(** ** Reconciliation of two inventories *)

(** [[f['name'] for f in linked_files if f not in files_in_upload_dir]] *)
Definition missing_files (linked_files files_in_upload_dir : list FileRecord)
  : list string :=
  name <$> filter (λ f, f ∉ files_in_upload_dir) linked_files.

(** [[f for f in files_in_upload_dir
       if (f['name'] == name and f['checksum'] != checksum)]] *)
Definition same_name_different_content_files
    (files_in_upload_dir : list FileRecord) (n c : string) : list FileRecord :=
  filter (λ f, name f = n ∧ checksum f ≠ c) files_in_upload_dir.

(** The loop of [get_changed_content_files] over the linked files, with the
    list [filenames] it appends to. *)
Fixpoint changed_content_loop (linked_files files_in_upload_dir : list FileRecord)
    (filenames : list string) : list string :=
  match linked_files with
  | [] => filenames
  | file :: rest =>
      let same :=
        same_name_different_content_files files_in_upload_dir
          (name file) (checksum file) in
      changed_content_loop rest files_in_upload_dir
        (if decide (length same = 1) then filenames ++ [name file]
         else filenames)
  end.

Definition changed_content_files (linked_files files_in_upload_dir : list FileRecord)
  : list string :=
  changed_content_loop linked_files files_in_upload_dir [].

(** [[f['name'] for f in input_folder_files if f not in linked_files]] *)
Definition files_to_upload (input_folder_files linked_files : list FileRecord)
  : list string :=
  name <$> filter (λ f, f ∉ linked_files) input_folder_files.

(** [list(set(filenames))]: the names without duplicates.  Python leaves the
    order of the result open; [elements] fixes one. *)
Definition remove_duplicates (filenames : list string) : list string :=
  elements (list_to_set filenames : gset string).

(** ** The client *)

(** The outside of the client: the state of the world (the archive and
    whatever else answers the requests) and the connection to it
    ([RestAPIConnection] sends a request and hands back the response); the
    clock; the local file system, that is [os.path.join], whether
    [open(path, 'rb')] succeeds, and the helpers of
    [big_map_archive_api_client.utils] that read the metadata file and the
    upload directory.  The personal access token is the same in every
    request of a client and is left out of the requests.  A connection
    always hands back a response: a request that fails with no response
    (a [ConnectionError]) is outside the model.  The date and the local
    files do not change while a method runs. *)
Class Environment := {
  World : Type;
  connection : Request → World → Response * World;
  (** [date.today().strftime('%Y-%m-%d')] *)
  today : string;
  os_path_join : list string → string;
  file_exists : string → bool;
  get_name_to_checksum_for_files_in_upload_dir :
    string → string → Error + list FileRecord;
  generate_full_metadata : string → Error + json;
  change_metadata : json → string → string → Error + json
}.

Record ClientState `{Environment} := {
  world : World;
  log : list Request
}.

(** A client method: it returns a value or raises, and leaves a state. *)
Definition M `{Environment} (A : Type) : Type :=
  ClientState → (Error + A) * ClientState.

Definition ret `{Environment} {A} (a : A) : M A := λ s, (inr a, s).

Definition raise `{Environment} {A} (e : Error) : M A := λ s, (inl e, s).

Definition bind `{Environment} {A B} (m : M A) (f : A → M B) : M B :=
  λ s, match m s with
       | (inr a, s') => f a s'
       | (inl e, s') => (inl e, s')
       end.

Definition lift `{Environment} {A} (r : Error + A) : M A := λ s, (r, s).

Notation "x <- m ;; k" := (bind m (λ x, k))
  (at level 100, m at next level, right associativity).
Notation "m ;;; k" := (bind m (λ _, k))
  (at level 100, right associativity).

Section Client.

Context `{Environment}.

(** [for x in l: body(x)] *)
Fixpoint for_each {A} (l : list A) (body : A → M unit) : M unit :=
  match l with
  | [] => ret tt
  | x :: rest => body x ;;; for_each rest body
  end.

(** One request on the connection: the world answers and the request is
    logged. *)
Definition send (req : Request) : M Response :=
  λ s, let (r, w) := connection req (world s) in
       (inr r, {| world := w; log := log s ++ [req] |}).

Definition connection_get (path : string) : M Response :=
  send {| method := GET; resource_path := path; payload := NoPayload |}.

Definition connection_post (path : string) (p : Payload) : M Response :=
  send {| method := POST; resource_path := path; payload := p |}.

Definition connection_put (path : string) (p : Payload) : M Response :=
  send {| method := PUT; resource_path := path; payload := p |}.

Definition connection_delete (path : string) : M Response :=
  send {| method := DELETE; resource_path := path; payload := NoPayload |}.

Definition raise_for_status (r : Response) : M unit :=
  if is_error_status r then raise (HTTPError r) else ret tt.

(** [response.json()] *)
Definition response_json (r : Response) : M json :=
  match content r with
  | Some j => ret j
  | None => raise JSONDecodeError
  end.

Definition post_records (base_dir_path metadata_file_path : string) : M json :=
  let resource_path := "/api/records" in
  let metadata_file_path := os_path_join [base_dir_path; metadata_file_path] in
  full_metadata <- lift (generate_full_metadata metadata_file_path) ;;
  response <- connection_post resource_path (JsonPayload full_metadata) ;;
  raise_for_status response ;;;
  response_json response.

Definition post_files (record_id : string) (filenames : list string) : M json :=
  let resource_path := "/api/records/" +:+ record_id +:+ "/draft/files" in
  let key_to_filename :=
    (λ filename, JObj {[ "key" := JStr filename ]}) <$> filenames in
  response <- connection_post resource_path (JsonPayload (JArr key_to_filename)) ;;
  raise_for_status response ;;;
  response_json response.

Definition put_content (record_id base_dir_path upload_dir_path filename : string)
  : M json :=
  let resource_path :=
    "/api/records/" +:+ record_id +:+ "/draft/files/" +:+ filename +:+ "/content" in
  let file_path := os_path_join [base_dir_path; upload_dir_path; filename] in
  (if file_exists file_path then ret tt else raise (OSError file_path)) ;;;
  response <- connection_put resource_path (FilePayload file_path) ;;
  raise_for_status response ;;;
  response_json response.

Definition post_commit (record_id filename : string) : M json :=
  let resource_path :=
    "/api/records/" +:+ record_id +:+ "/draft/files/" +:+ filename +:+ "/commit" in
  response <- connection_post resource_path NoPayload ;;
  raise_for_status response ;;;
  response_json response.

Definition get_draft (record_id : string) : M json :=
  let resource_path := "/api/records/" +:+ record_id +:+ "/draft" in
  response <- connection_get resource_path ;;
  raise_for_status response ;;;
  response_json response.

Definition put_draft (record_id : string) (metadata : json) : M json :=
  let resource_path := "/api/records/" +:+ record_id +:+ "/draft" in
  response <- connection_put resource_path (JsonPayload metadata) ;;
  raise_for_status response ;;;
  response_json response.

Definition delete_draft (record_id : string) : M unit :=
  let resource_path := "/api/records/" +:+ record_id +:+ "/draft" in
  response <- connection_delete resource_path ;;
  raise_for_status response.

(** [response['metadata']['publication_date'] = ...] updates the metadata
    inside the document that was read, and that document is written. *)
Definition insert_publication_date (record_id : string) : M unit :=
  response <- get_draft record_id ;;
  metadata <- lift (getitem response "metadata") ;;
  metadata <- lift (setitem metadata "publication_date" (JStr today)) ;;
  response <- lift (setitem response "metadata" metadata) ;;
  put_draft record_id response ;;;
  ret tt.

Definition post_publish (record_id : string) : M json :=
  let resource_path := "/api/records/" +:+ record_id +:+ "/draft/actions/publish" in
  response <- connection_post resource_path NoPayload ;;
  raise_for_status response ;;;
  response_json response.

Definition get_record (record_id : string) : M json :=
  let resource_path := "/api/records/" +:+ record_id in
  response <- connection_get resource_path ;;
  raise_for_status response ;;;
  response_json response.

(** [all_versions] is the text that the f-string makes of the argument.
    [response_size] is what [int(float(response_size))] evaluates to: an
    integer, or the error that the conversion raises, before any request. *)
Definition get_records (all_versions : string) (response_size : Error + Z)
  : M json :=
  response_size <- lift response_size ;;
  let resource_path :=
    "/api/records?allversions=" +:+ all_versions
      +:+ "&size=" +:+ pretty response_size in
  response <- connection_get resource_path ;;
  raise_for_status response ;;;
  response_json response.

Definition post_draft (record_id : string) : M json :=
  let resource_path := "/api/records/" +:+ record_id +:+ "/draft" in
  response <- connection_post resource_path NoPayload ;;
  raise_for_status response ;;;
  response_json response.

Definition post_versions (record_id : string) : M json :=
  let resource_path := "/api/records/" +:+ record_id +:+ "/versions" in
  response <- connection_post resource_path NoPayload ;;
  raise_for_status response ;;;
  response_json response.

Definition get_files (record_id : string) : M json :=
  let resource_path := "/api/records/" +:+ record_id +:+ "/draft/files" in
  response <- connection_get resource_path ;;
  raise_for_status response ;;;
  response_json response.

Definition delete_filename (record_id filename : string) : M unit :=
  let resource_path :=
    "/api/records/" +:+ record_id +:+ "/draft/files/" +:+ filename in
  response <- connection_delete resource_path ;;
  raise_for_status response.

Definition post_file_import (record_id : string) : M json :=
  let resource_path :=
    "/api/records/" +:+ record_id +:+ "/draft/actions/files-import" in
  response <- connection_post resource_path NoPayload ;;
  raise_for_status response ;;;
  response_json response.

Definition update_metadata (record_id base_dir_path metadata_file_path : string)
  : M unit :=
  metadata <- get_draft record_id ;;
  metadata <- lift (change_metadata metadata base_dir_path metadata_file_path) ;;
  put_draft record_id metadata ;;;
  ret tt.

Definition upload_files (record_id base_dir_path upload_dir_path : string)
    (filenames : list string) : M unit :=
  post_files record_id filenames ;;;
  for_each filenames (λ filename,
    put_content record_id base_dir_path upload_dir_path filename ;;;
    post_commit record_id filename ;;;
    ret tt).

Definition get_name_to_checksum_for_linked_files (record_id : string)
  : M (list FileRecord) :=
  response <- get_files record_id ;;
  entries <- lift (getitem response "entries") ;;
  lift (linked_files_of entries).

Definition get_links (record_id : string) : M (list string) :=
  linked_files <- get_name_to_checksum_for_linked_files record_id ;;
  ret (name <$> linked_files).

Definition delete_links (record_id : string) (filenames : list string) : M unit :=
  for_each filenames (λ filename, delete_filename record_id filename).

Definition get_missing_files (record_id base_dir_path upload_dir_path : string)
  : M (list string) :=
  linked_files <- get_name_to_checksum_for_linked_files record_id ;;
  files_in_upload_dir <-
    lift (get_name_to_checksum_for_files_in_upload_dir base_dir_path upload_dir_path) ;;
  ret (missing_files linked_files files_in_upload_dir).

Definition get_changed_content_files
    (record_id base_dir_path upload_dir_path : string) : M (list string) :=
  linked_files <- get_name_to_checksum_for_linked_files record_id ;;
  files_in_upload_dir <-
    lift (get_name_to_checksum_for_files_in_upload_dir base_dir_path upload_dir_path) ;;
  ret (changed_content_files linked_files files_in_upload_dir).

Definition get_links_to_delete (record_id base_dir_path upload_dir_path : string)
    (force : bool) : M (list string) :=
  filenames <- get_changed_content_files record_id base_dir_path upload_dir_path ;;
  filenames <-
    (if force then
       more <- get_missing_files record_id base_dir_path upload_dir_path ;;
       ret (filenames ++ more)
     else ret filenames) ;;
  ret (remove_duplicates filenames).

Definition get_files_to_upload (record_id base_dir_path upload_dir_path : string)
  : M (list string) :=
  input_folder_files <-
    lift (get_name_to_checksum_for_files_in_upload_dir base_dir_path upload_dir_path) ;;
  linked_files <- get_name_to_checksum_for_linked_files record_id ;;
  ret (files_to_upload input_folder_files linked_files).

Definition get_user_records (all_versions : bool) (response_size : Z) : M json :=
  let resource_path :=
    "/api/user/records?allversions=" +:+ (if all_versions then "True" else "False")
      +:+ "&size=" +:+ pretty response_size in
  response <- connection_get resource_path ;;
  raise_for_status response ;;;
  response_json response.

(** A call with more positional arguments than the method takes: Python
    raises [TypeError] when it binds the arguments, before the body of the
    method runs. *)
Definition too_many_arguments {A} : M A := raise TypeError.

(** [update_a_published_record] of [main.py], after the client is built.
    In both branches the draft is created and the id is read off the
    response; then [main.py] calls
    [client.update_metadata(record_id, base_dir, input_dir, metadata_filename)],
    four arguments for the three that [update_metadata] of [api_client.py]
    takes.  That call raises, so nothing after it in the function is
    reached, and the embedding ends with it. *)
Definition update_a_published_record (base_dir record_id : string)
    (new_version : bool) (input_dir metadata_filename : string)
    (force publish : bool) : M string :=
  if negb new_version then
    response <- post_draft record_id ;;
    record_id <- lift (getitem response "id") ;;
    too_many_arguments
  else
    response <- post_versions record_id ;;
    record_id <- lift (getitem response "id") ;;
    too_many_arguments.

End Client.

(** ** Vocabulary of the statements *)

(** The requests of the client methods. *)
Definition request (m : Method) (path : string) (p : Payload) : Request :=
  {| method := m; resource_path := path; payload := p |}.

Definition get_files_request (record_id : string) : Request :=
  request GET ("/api/records/" +:+ record_id +:+ "/draft/files") NoPayload.

Definition get_draft_request (record_id : string) : Request :=
  request GET ("/api/records/" +:+ record_id +:+ "/draft") NoPayload.

Definition put_draft_request (record_id : string) (metadata : json) : Request :=
  request PUT ("/api/records/" +:+ record_id +:+ "/draft") (JsonPayload metadata).

(** The response to a request in a state, and the state after it. *)
Definition response_to `{Environment} (req : Request) (s : ClientState) : Response :=
  (connection req (world s)).1.

Definition state_after `{Environment} (req : Request) (s : ClientState) : ClientState :=
  {| world := (connection req (world s)).2; log := log s ++ [req] |}.

(** What a method that sends one request, checks the status and decodes the
    body makes of the response. *)
Definition checked_json (r : Response) : Error + json :=
  if is_error_status r then inl (HTTPError r)
  else match content r with
       | Some j => inr j
       | None => inl JSONDecodeError
       end.

Definition checked (r : Response) : Error + unit :=
  if is_error_status r then inl (HTTPError r) else inr tt.

(** The inventory that [get_name_to_checksum_for_linked_files] reads in a
    response to [get_files]. *)
Definition linked_files_in (r : Response) : Error + list FileRecord :=
  match checked_json r with
  | inl e => inl e
  | inr response =>
      match getitem response "entries" with
      | inl e => inl e
      | inr entries => linked_files_of entries
      end
  end.

(** The archive answers every read of the links of a draft with the
    inventory [remote]. *)
Definition remote_inventory `{Environment} (record_id : string)
    (remote : list FileRecord) : Prop :=
  ∀ w, linked_files_in (connection (get_files_request record_id) w).1 = inr remote.

(** The upload directory holds the inventory [local]. *)
Definition local_inventory `{Environment} (base_dir_path upload_dir_path : string)
    (local : list FileRecord) : Prop :=
  get_name_to_checksum_for_files_in_upload_dir base_dir_path upload_dir_path
    = inr local.

(** The names of an inventory are unique. *)
Definition unique_names (inventory : list FileRecord) : Prop :=
  NoDup (name <$> inventory).

(** A method sends the one request [req]; it raises the HTTP error of the
    response when the status is an error status, that is when [ok] is
    false, and no HTTP error otherwise. *)
Definition status_checked `{Environment} {A} (m : M A) (req : Request) : Prop :=
  ∀ s,
    (m s).2 = state_after req s ∧
    (ok (response_to req s) = false →
     (m s).1 = inl (HTTPError (response_to req s))) ∧
    (ok (response_to req s) = true → ∀ r, (m s).1 ≠ inl (HTTPError r)).

(** A method that reads the links of a draft first hands the HTTP error of
    that read to its caller, after the one request. *)
Definition propagates_read_error `{Environment} {A} (m : M A) (record_id : string)
  : Prop :=
  ∀ s, ok (response_to (get_files_request record_id) s) = false →
       m s = (inl (HTTPError (response_to (get_files_request record_id) s)),
              state_after (get_files_request record_id) s).

(** The requests of the transitions and of the uploads. *)
Definition post_versions_request (record_id : string) : Request :=
  request POST ("/api/records/" +:+ record_id +:+ "/versions") NoPayload.

Definition delete_filename_request (record_id filename : string) : Request :=
  request DELETE ("/api/records/" +:+ record_id +:+ "/draft/files/" +:+ filename)
    NoPayload.

Definition post_files_request (record_id : string) (filenames : list string)
  : Request :=
  request POST ("/api/records/" +:+ record_id +:+ "/draft/files")
    (JsonPayload
       (JArr ((λ filename, JObj {[ "key" := JStr filename ]}) <$> filenames))).

Definition put_content_request `{Environment}
    (record_id base_dir_path upload_dir_path filename : string) : Request :=
  request PUT
    ("/api/records/" +:+ record_id +:+ "/draft/files/" +:+ filename +:+ "/content")
    (FilePayload (os_path_join [base_dir_path; upload_dir_path; filename])).

Definition post_commit_request (record_id filename : string) : Request :=
  request POST
    ("/api/records/" +:+ record_id +:+ "/draft/files/" +:+ filename +:+ "/commit")
    NoPayload.

(** The requests of [upload_files]: the registration of all the names, then
    for each file its content and its commit. *)
Definition upload_requests `{Environment}
    (record_id base_dir_path upload_dir_path : string) (filenames : list string)
  : list Request :=
  post_files_request record_id filenames ::
  (filename ← filenames;
   [put_content_request record_id base_dir_path upload_dir_path filename;
    post_commit_request record_id filename]).

(** A method extends the log by requests that make up a list described by
    [P] together with the value returned, or, when it raises, by the
    beginning of such a list. *)
Definition traces `{Environment} {A} (m : M A) (P : A → list Request → Prop)
  : Prop :=
  ∀ s, ∃ sent,
    log (m s).2 = log s ++ sent ∧
    match (m s).1 with
    | inr a => P a sent
    | inl _ => ∃ a L, P a L ∧ sent `prefix_of` L
    end.

(** ** An archive to run the client against *)

Definition entry_json (f : FileRecord) : json :=
  JObj (<["key" := JStr (name f)]> {["checksum" := JStr (checksum f)]}).

(** The document of a draft with id [v2] and a title. *)
Definition example_draft : json :=
  JObj (<["id" := JStr "v2"]> {["metadata" := JObj {["title" := JStr "Cells"]}]}).

(** A document with the links [remote] as its entries. *)
Definition with_entries (remote : list FileRecord) (j : json) : json :=
  match j with
  | JObj m => JObj (<["entries" := JArr (entry_json <$> remote)]> m)
  | _ => JObj {["entries" := JArr (entry_json <$> remote)]}
  end.

(** An archive that keeps one document and the links [remote]: a PUT of a
    document stores it, and every response has the status [status] and, as
    its body, the stored document with the links as its entries.  The
    upload directory holds [local], every file can be opened, and the
    metadata file leaves the metadata as it is. *)
Definition example_environment (status : Z) (remote local : list FileRecord)
  : Environment :=
  {| World := json;
     connection := λ req w,
       let w' := match method req, payload req with
                 | PUT, JsonPayload j => j
                 | _, _ => w
                 end in
       ({| status_code := status; content := Some (with_entries remote w') |}, w');
     today := "2020-06-01";
     os_path_join := String.concat "/";
     file_exists := λ _, true;
     get_name_to_checksum_for_files_in_upload_dir := λ _ _, inr local;
     generate_full_metadata := λ _, inr JNull;
     change_metadata := λ metadata _ _, inr metadata |}.

Definition file (n c : string) : FileRecord := {| name := n; checksum := c |}.

(** The archives of the examples, all with the draft [v2]: a link whose
    local file has another content; a link with two same-named local files;
    two links against a directory with one of them and a new file; a link against a directory
    with another file; and two links against a directory with the same two
    files. *)
Definition resync_archive : Environment :=
  example_environment 200 [file "a" "1"] [file "a" "2"].

Definition ambiguous_archive : Environment :=
  example_environment 200 [file "a" "1"] [file "a" "2"; file "a" "3"].

Definition scenario_archive : Environment :=
  example_environment 200 [file "x.csv" "aaa"; file "y.csv" "bbb"]
    [file "x.csv" "aaa"; file "z.csv" "ccc"].

Definition disjoint_archive : Environment :=
  example_environment 200 [file "y.csv" "bbb"] [file "z.csv" "ccc"].

Definition synced_archive : Environment :=
  example_environment 200 [file "x.csv" "aaa"; file "z.csv" "ccc"]
    [file "z.csv" "ccc"; file "x.csv" "aaa"].

(** An archive that answers every request with the status 304, which is
    neither a success status nor an error status. *)
Definition not_modified_archive : Environment :=
  example_environment 304 [file "a" "1"] [file "a" "2"].

(** An archive that answers every request with the status 404. *)
Definition failing_archive : Environment :=
  example_environment 404 [file "a" "1"] [file "a" "2"].

(** The state in which the examples start: the archive holds the draft and
    no request was sent. *)
Definition start (env : Environment) (w : @World env) : @ClientState env :=
  @Build_ClientState env w [].

(** ** More of the client and of its callers *)

(** The body of the comprehension of [get_latest_versions]:
    [{'id': v['id'], 'is_published': v['is_published']}]. *)
Definition latest_version_of (v : json) : Error + json :=
  match getitem v "id" with
  | inl e => inl e
  | inr id =>
      match getitem v "is_published" with
      | inl e => inl e
      | inr is_published =>
          inr (JObj (<["id" := id]> {["is_published" := is_published]}))
      end
  end.

Fixpoint latest_versions_of_hits (hits : list json) : Error + list json :=
  match hits with
  | [] => inr []
  | v :: rest =>
      match latest_version_of v with
      | inl e => inl e
      | inr version =>
          match latest_versions_of_hits rest with
          | inl e => inl e
          | inr versions => inr (version :: versions)
          end
      end
  end.

(** [for v in latest_versions], as for the entries of the linked files. *)
Definition latest_versions_of (latest_versions : json) : Error + list json :=
  match latest_versions with
  | JArr l => latest_versions_of_hits l
  | JObj m => if decide (m = ∅) then inr [] else inl TypeError
  | JStr s => if decide (s = "") then inr [] else inl TypeError
  | _ => inl TypeError
  end.

(** [int(float('1e6'))] is 1000000. *)
Definition get_latest_versions `{Environment} : M (list json) :=
  let all_versions := false in
  let response_size := 1000000%Z in
  response <- get_user_records all_versions response_size ;;
  hits <- lift (getitem response "hits") ;;
  latest_versions <- lift (getitem hits "hits") ;;
  lift (latest_versions_of latest_versions).


(** A response with the status 200 and a body. *)
Definition response_200 (body : json) : Response :=
  {| status_code := 200; content := Some body |}.

(** The body of a read of the links [remote]. *)
Definition files_body (remote : list FileRecord) : json :=
  JObj {["entries" := JArr (entry_json <$> remote)]}.

(** An archive that answers the requests with the responses of a script,
    one after the other, and with an empty document once the script is
    over.  The upload directory holds [local]; [readable] tells the files
    that can be opened; [change] is what the metadata file makes of the
    metadata of a draft. *)
Definition scripted_archive (local : list FileRecord) (readable : string → bool)
    (change : json → Error + json) : Environment :=
  {| World := list Response;
     connection := λ req w,
       match w with
       | r :: rest => (r, rest)
       | [] => (response_200 (JObj ∅), [])
       end;
     today := "2020-06-01";
     os_path_join := String.concat "/";
     file_exists := readable;
     get_name_to_checksum_for_files_in_upload_dir := λ _ _, inr local;
     generate_full_metadata := λ _, inr (JObj {["title" := JStr "Cells"]});
     change_metadata := λ metadata _ _, change metadata |}.

(** An archive whose links change between two reads: first the link
    (a,1), then the link (b,2); the upload directory holds (a,2). *)
Definition changing_archive : Environment :=
  scripted_archive [file "a" "2"] (λ _, true) inr.

Definition changing_script : list Response :=
  [response_200 (files_body [file "a" "1"]);
   response_200 (files_body [file "b" "2"])].

(** An entry is well formed for a file when its key and its checksum are
    the name and the checksum of the file, as strings. *)
Definition entry_of (e : gmap string json) (f : FileRecord) : Prop :=
  e !! "key" = Some (JStr (name f)) ∧ e !! "checksum" = Some (JStr (checksum f)).

(** The request of [get_latest_versions]. *)
Definition latest_versions_request : Request :=
  request GET "/api/user/records?allversions=False&size=1000000" NoPayload.

(** The answer to a search with one hit: a published record with its id
    and its title. *)
Definition one_hit_script : list Response :=
  [response_200
     (JObj {["hits" :=
        JObj {["hits" :=
          JArr [JObj (<["id" := JStr "v1"]>
                      (<["is_published" := JBool true]>
                       {["title" := JStr "Cells"]}))]]}]})].

(** The answer to a read of the links with one entry, which has a size
    besides its key and its checksum, in a document with another field. *)
Definition rich_entry : gmap string json :=
  <["key" := JStr "a"]> (<["checksum" := JStr "1"]> {["size" := JNum 10]}).

Definition rich_script : list Response :=
  [response_200
     (JObj (<["entries" := JArr [JObj rich_entry]]> {["enabled" := JBool true]}))].

(** An archive that accepts the first request and answers the second with
    the status 404. *)
Definition stopping_script : list Response :=
  [response_200 (JObj ∅); {| status_code := 404; content := None |}].

(** An archive against a directory whose files cannot be opened. *)
Definition unreadable_archive : Environment :=
  scripted_archive [] (λ _, false) inr.

(** The answer to the creation of the draft v2. *)
Definition new_draft_script : list Response :=
  [response_200 (JObj {["id" := JStr "v2"]})].

(** ** The reconciliation of two inventories *)

Lemma filter_all {A} (P : A → Prop) `{∀ x, Decision (P x)} (l : list A) :
  (∀ x, x ∈ l → P x) → filter P l = l.
Proof.
  induction l as [|x l IH]; intros Hall; [done|].
  rewrite filter_cons_True by (apply Hall; left).
  f_equal. apply IH. intros y Hy. apply Hall. by right.
Qed.

Lemma filter_none {A} (P : A → Prop) `{∀ x, Decision (P x)} (l : list A) :
  (∀ x, x ∈ l → ¬ P x) → filter P l = [].
Proof.
  induction l as [|x l IH]; intros Hnone; [done|].
  rewrite filter_cons_False by (apply Hnone; left).
  apply IH. intros y Hy. apply Hnone. by right.
Qed.

Section Reconciliation.

Implicit Types (remote local : list FileRecord) (n c : string).

Lemma elem_of_missing_files remote local n :
  n ∈ missing_files remote local ↔
  ∃ c, file n c ∈ remote ∧ file n c ∉ local.
Proof.
  unfold missing_files. rewrite list_elem_of_fmap. split.
  - intros ([n' c] & -> & Hf). apply list_elem_of_filter in Hf as [Hnot Hin].
    exists c. done.
  - intros (c & Hin & Hnot). exists (file n c). split; [done|].
    apply list_elem_of_filter. done.
Qed.

Lemma elem_of_files_to_upload local remote n :
  n ∈ files_to_upload local remote ↔
  ∃ c, file n c ∈ local ∧ file n c ∉ remote.
Proof. apply elem_of_missing_files. Qed.

(** The loop appends, in the order of the linked files, the names of those
    with exactly one same-named local file of another content. *)
Lemma changed_content_loop_filter remote local filenames :
  changed_content_loop remote local filenames =
  filenames ++
  (name <$> filter
     (λ f, length (same_name_different_content_files local (name f) (checksum f)) = 1)
     remote).
Proof.
  revert filenames. induction remote as [|f remote IH]; intros filenames; simpl.
  - by rewrite app_nil_r.
  - rewrite IH, filter_cons. case_decide; simpl.
    + by rewrite <- app_assoc.
    + done.
Qed.

Lemma elem_of_changed_content_files remote local n :
  n ∈ changed_content_files remote local ↔
  ∃ c, file n c ∈ remote ∧
       length (same_name_different_content_files local n c) = 1.
Proof.
  unfold changed_content_files. rewrite changed_content_loop_filter. simpl.
  rewrite list_elem_of_fmap. split.
  - intros ([n' c] & -> & Hf). apply list_elem_of_filter in Hf as [Hone Hin].
    exists c. done.
  - intros (c & Hin & Hone). exists (file n c). split; [done|].
    apply list_elem_of_filter. done.
Qed.

Lemma elem_of_same_name_different_content_files local n c f :
  f ∈ same_name_different_content_files local n c ↔
  f ∈ local ∧ name f = n ∧ checksum f ≠ c.
Proof.
  unfold same_name_different_content_files. rewrite list_elem_of_filter. tauto.
Qed.

Lemma NoDup_remove_duplicates filenames : NoDup (remove_duplicates filenames).
Proof. unfold remove_duplicates. apply (NoDup_elements (C := gset string)). Qed.

Lemma elem_of_remove_duplicates filenames n :
  n ∈ remove_duplicates filenames ↔ n ∈ filenames.
Proof.
  unfold remove_duplicates. by rewrite elem_of_elements, elem_of_list_to_set.
Qed.

Lemma remove_duplicates_singleton filenames n :
  (∀ m, m ∈ filenames ↔ m = n) → remove_duplicates filenames = [n].
Proof.
  intros Hn. unfold remove_duplicates.
  assert ((list_to_set filenames : gset string) = {[ n ]}) as ->.
  { apply set_eq. intros m.
    by rewrite elem_of_list_to_set, elem_of_singleton. }
  apply elements_singleton.
Qed.

Lemma remove_duplicates_nil : remove_duplicates [] = [].
Proof. reflexivity. Qed.

(** In an inventory with unique names a name has one checksum. *)
Lemma unique_names_checksum local n c c' :
  unique_names local → file n c ∈ local → file n c' ∈ local → c = c'.
Proof.
  unfold unique_names. induction local as [|f local IH]; intros Hnd H1 H2.
  - by apply elem_of_nil in H1.
  - simpl in Hnd. apply NoDup_cons in Hnd as [Hnotin Hnd].
    apply elem_of_cons in H1 as [H1|H1]; apply elem_of_cons in H2 as [H2|H2].
    + unfold file in *. congruence.
    + subst f. exfalso. apply Hnotin.
      apply list_elem_of_fmap. by exists (file n c').
    + subst f. exfalso. apply Hnotin.
      apply list_elem_of_fmap. by exists (file n c).
    + by apply IH.
Qed.

(** With unique local names, a changed content makes the remote pair
    differ from every local pair. *)
Lemma changed_content_files_missing_files remote local :
  unique_names local →
  ∀ n, n ∈ changed_content_files remote local → n ∈ missing_files remote local.
Proof.
  intros Hunique n Hn.
  apply elem_of_changed_content_files in Hn as (c & Hin & Hone).
  apply elem_of_missing_files. exists c. split; [done|]. intros Hlocal.
  destruct (same_name_different_content_files local n c) as [|f l] eqn:Hsame;
    [done|].
  assert (f ∈ same_name_different_content_files local n c) as Hf
    by (rewrite Hsame; left).
  apply elem_of_same_name_different_content_files in Hf as (Hf & Hname & Hsum).
  destruct f as [n' c']. simpl in *. subst n'.
  apply Hsum. symmetry. by apply (unique_names_checksum local n).
Qed.

End Reconciliation.

(** ** Running the client methods *)

Section Runs.

Context `{Environment}.

Implicit Types (s : ClientState) (remote local : list FileRecord).

Lemma send_run req s :
  send req s = (inr (response_to req s), state_after req s).
Proof.
  unfold send, response_to, state_after.
  by destruct (connection req (world s)).
Qed.

(** A request whose status is checked and whose body is decoded. *)
Lemma checked_json_run req s :
  (response <- send req ;; raise_for_status response ;;; response_json response) s
  = (checked_json (response_to req s), state_after req s).
Proof.
  unfold bind. rewrite send_run.
  unfold raise_for_status, response_json, checked_json, raise, ret.
  destruct (is_error_status _); [done|]. by destruct (content _).
Qed.

(** A request whose status is checked. *)
Lemma checked_run req s :
  (response <- send req ;; raise_for_status response) s
  = (checked (response_to req s), state_after req s).
Proof.
  unfold bind. rewrite send_run.
  unfold raise_for_status, checked, raise, ret.
  by destruct (is_error_status _).
Qed.

Lemma get_files_run record_id s :
  get_files record_id s =
  (checked_json (response_to (get_files_request record_id) s),
   state_after (get_files_request record_id) s).
Proof. apply checked_json_run. Qed.

Lemma get_name_to_checksum_for_linked_files_run record_id s :
  get_name_to_checksum_for_linked_files record_id s =
  (linked_files_in (response_to (get_files_request record_id) s),
   state_after (get_files_request record_id) s).
Proof.
  unfold get_name_to_checksum_for_linked_files, bind.
  rewrite get_files_run. unfold linked_files_in, lift.
  destruct (checked_json _); [done|]. by destruct (getitem _ _).
Qed.

Lemma linked_files_run record_id remote s :
  remote_inventory record_id remote →
  get_name_to_checksum_for_linked_files record_id s =
  (inr remote, state_after (get_files_request record_id) s).
Proof.
  intros Hremote. rewrite get_name_to_checksum_for_linked_files_run.
  unfold response_to. by rewrite Hremote.
Qed.

Lemma get_missing_files_run record_id base_dir_path upload_dir_path remote local s :
  remote_inventory record_id remote →
  local_inventory base_dir_path upload_dir_path local →
  get_missing_files record_id base_dir_path upload_dir_path s =
  (inr (missing_files remote local), state_after (get_files_request record_id) s).
Proof.
  intros Hremote Hlocal. unfold get_missing_files, bind.
  rewrite (linked_files_run _ remote) by done.
  unfold lift. by rewrite Hlocal.
Qed.

Lemma get_changed_content_files_run
    record_id base_dir_path upload_dir_path remote local s :
  remote_inventory record_id remote →
  local_inventory base_dir_path upload_dir_path local →
  get_changed_content_files record_id base_dir_path upload_dir_path s =
  (inr (changed_content_files remote local),
   state_after (get_files_request record_id) s).
Proof.
  intros Hremote Hlocal. unfold get_changed_content_files, bind.
  rewrite (linked_files_run _ remote) by done.
  unfold lift. by rewrite Hlocal.
Qed.

Lemma get_files_to_upload_run record_id base_dir_path upload_dir_path remote local s :
  remote_inventory record_id remote →
  local_inventory base_dir_path upload_dir_path local →
  get_files_to_upload record_id base_dir_path upload_dir_path s =
  (inr (files_to_upload local remote), state_after (get_files_request record_id) s).
Proof.
  intros Hremote Hlocal. unfold get_files_to_upload, bind, lift.
  rewrite Hlocal. by rewrite (linked_files_run _ remote) by done.
Qed.

Lemma get_links_to_delete_run
    record_id base_dir_path upload_dir_path force remote local s :
  remote_inventory record_id remote →
  local_inventory base_dir_path upload_dir_path local →
  (get_links_to_delete record_id base_dir_path upload_dir_path force s).1 =
  inr (remove_duplicates
         (changed_content_files remote local ++
          if force then missing_files remote local else [])).
Proof.
  intros Hremote Hlocal. unfold get_links_to_delete, bind.
  rewrite (get_changed_content_files_run _ _ _ remote local) by done.
  destruct force.
  - rewrite (get_missing_files_run _ _ _ remote local) by done. done.
  - unfold ret. simpl. by rewrite app_nil_r.
Qed.

End Runs.

(** ** The example archive *)

Lemma linked_file_of_entry_json f : linked_file_of_entry (entry_json f) = inr f.
Proof.
  destruct f as [n c]. unfold linked_file_of_entry, entry_json, getitem. simpl.
  rewrite lookup_insert_eq.
  rewrite lookup_insert_ne by done. by rewrite lookup_singleton_eq.
Qed.

Lemma linked_files_of_entries_json remote :
  linked_files_of_entries (entry_json <$> remote) = inr remote.
Proof.
  induction remote as [|f remote IH]; [done|].
  rewrite fmap_cons. cbn [linked_files_of_entries].
  by rewrite linked_file_of_entry_json, IH.
Qed.

Lemma linked_files_in_with_entries status remote j :
  is_error_status {| status_code := status; content := Some j |} = false →
  linked_files_in {| status_code := status; content := Some (with_entries remote j) |}
  = inr remote.
Proof.
  intros Hok. unfold linked_files_in, checked_json.
  replace (is_error_status _) with false by done. simpl.
  destruct j; simpl; rewrite ?lookup_insert_eq, ?lookup_singleton_eq; simpl;
    apply linked_files_of_entries_json.
Qed.

(** The example archive answers with its links, whatever it stores. *)
Lemma example_remote_inventory status remote local record_id :
  (status < 400)%Z →
  remote_inventory (H := example_environment status remote local) record_id remote.
Proof.
  intros Hstatus w. simpl. apply linked_files_in_with_entries.
  unfold is_error_status. simpl. apply andb_false_iff. left. lia.
Qed.

Lemma example_local_inventory status remote local base_dir_path upload_dir_path :
  local_inventory (H := example_environment status remote local)
    base_dir_path upload_dir_path local.
Proof. reflexivity. Qed.

(** ** Links to delete and files to upload *)

Section Decisions.

Context `{Environment}.

Implicit Types (s : ClientState) (remote local : list FileRecord).
Implicit Types (record_id base_dir_path upload_dir_path n c : string).

(** C1. Whatever the remote inventory, the local inventory and [force] are,
    [get_links_to_delete] returns a list without duplicates whose names are,
    as a set, the changed-content names together with the missing names
    when [force] is true, and the changed-content names alone when it is
    false.  A name is missing when it is the name of a remote entry whose
    (name, checksum) pair is no pair of the local inventory. *)
Theorem get_links_to_delete_union
    record_id base_dir_path upload_dir_path remote local force s :
  remote_inventory record_id remote →
  local_inventory base_dir_path upload_dir_path local →
  ∃ changed missing to_delete,
    (get_changed_content_files record_id base_dir_path upload_dir_path s).1
      = inr changed ∧
    (get_missing_files record_id base_dir_path upload_dir_path s).1 = inr missing ∧
    (get_links_to_delete record_id base_dir_path upload_dir_path force s).1
      = inr to_delete ∧
    NoDup to_delete ∧
    (list_to_set to_delete : gset string) =
      list_to_set changed ∪ (if force then list_to_set missing else ∅) ∧
    (∀ n, n ∈ missing ↔ ∃ c, file n c ∈ remote ∧ file n c ∉ local).
Proof.
  intros Hremote Hlocal.
  exists (changed_content_files remote local), (missing_files remote local).
  eexists. split_and!.
  - by rewrite (get_changed_content_files_run _ _ _ remote local).
  - by rewrite (get_missing_files_run _ _ _ remote local).
  - by apply get_links_to_delete_run.
  - apply NoDup_remove_duplicates.
  - apply set_eq. intros n.
    rewrite elem_of_list_to_set, elem_of_remove_duplicates, elem_of_app.
    rewrite elem_of_union, elem_of_list_to_set.
    destruct force; [by rewrite elem_of_list_to_set|].
    rewrite elem_of_nil. set_solver.
  - apply elem_of_missing_files.
Qed.

(** C2. [get_files_to_upload] returns the names of the local entries whose
    (name, checksum) pair is no pair of the remote inventory, in the order
    of the local inventory.  When no name is in both inventories, these are
    all the local names, and the links to delete are the missing names when
    [force] is true and none when it is false. *)
Theorem get_files_to_upload_exact
    record_id base_dir_path upload_dir_path remote local s :
  remote_inventory record_id remote →
  local_inventory base_dir_path upload_dir_path local →
  ∃ to_upload missing,
    (get_files_to_upload record_id base_dir_path upload_dir_path s).1
      = inr to_upload ∧
    (get_missing_files record_id base_dir_path upload_dir_path s).1 = inr missing ∧
    to_upload = name <$> filter (λ f, f ∉ remote) local ∧
    (∀ n, n ∈ to_upload ↔ ∃ c, file n c ∈ local ∧ file n c ∉ remote) ∧
    ((∀ n, n ∈ name <$> remote → n ∉ name <$> local) →
     to_upload = name <$> local ∧
     ∀ force, ∃ to_delete,
       (get_links_to_delete record_id base_dir_path upload_dir_path force s).1
         = inr to_delete ∧
       (list_to_set to_delete : gset string) =
         if force then list_to_set missing else ∅).
Proof.
  intros Hremote Hlocal.
  exists (files_to_upload local remote), (missing_files remote local). split_and!.
  - by rewrite (get_files_to_upload_run _ _ _ remote local).
  - by rewrite (get_missing_files_run _ _ _ remote local).
  - done.
  - apply elem_of_files_to_upload.
  - intros Hdisjoint. split.
    + unfold files_to_upload. f_equal. apply filter_all.
      intros f Hf Hin. apply (Hdisjoint (name f)); by apply list_elem_of_fmap_2.
    + intros force. eexists. split; [by apply get_links_to_delete_run|].
      assert (changed_content_files remote local = []) as ->.
      { apply elem_of_nil_inv. intros n Hn.
        apply elem_of_changed_content_files in Hn as (c & Hin & Hone).
        destruct (same_name_different_content_files local n c) as [|f l] eqn:Hsame;
          [done|].
        assert (f ∈ same_name_different_content_files local n c) as Hf
          by (rewrite Hsame; left).
        apply elem_of_same_name_different_content_files in Hf as (Hf & Hname & _).
        apply (Hdisjoint n).
        - apply list_elem_of_fmap. by exists (file n c).
        - apply list_elem_of_fmap. by exists f. }
      simpl. destruct force.
      * apply set_eq. intros n.
        by rewrite !elem_of_list_to_set, elem_of_remove_duplicates.
      * by rewrite remove_duplicates_nil.
Qed.

(** C3, as the code has it.  A name that [get_links_to_delete] and
    [get_files_to_upload] both return is the name of a remote entry and of
    a local entry with another checksum, whose pair is no pair of the
    remote inventory.  So the two results are disjoint when every local
    entry under a linked name is itself in the remote inventory. *)
Theorem links_to_delete_files_to_upload_overlap
    record_id base_dir_path upload_dir_path remote local force s :
  remote_inventory record_id remote →
  local_inventory base_dir_path upload_dir_path local →
  ∃ to_delete to_upload,
    (get_links_to_delete record_id base_dir_path upload_dir_path force s).1
      = inr to_delete ∧
    (get_files_to_upload record_id base_dir_path upload_dir_path s).1
      = inr to_upload ∧
    (∀ n, n ∈ to_delete → n ∈ to_upload →
          ∃ c c', file n c ∈ remote ∧ file n c' ∈ local ∧ c ≠ c' ∧
                  file n c' ∉ remote) ∧
    ((∀ f, f ∈ local → name f ∈ name <$> remote → f ∈ remote) →
     ∀ n, n ∈ to_delete → n ∉ to_upload).
Proof.
  intros Hremote Hlocal. eexists. exists (files_to_upload local remote).
  split; [by apply get_links_to_delete_run|].
  split; [by rewrite (get_files_to_upload_run _ _ _ remote local)|].
  assert (Hlinked : ∀ n,
    n ∈ remove_duplicates (changed_content_files remote local ++
          (if force then missing_files remote local else [])) →
    ∃ c, file n c ∈ remote).
  { intros n Hn. apply elem_of_remove_duplicates, elem_of_app in Hn as [Hn|Hn].
    - apply elem_of_changed_content_files in Hn as (c & Hin & _). by exists c.
    - destruct force; [|by apply elem_of_nil in Hn].
      apply elem_of_missing_files in Hn as (c & Hin & _). by exists c. }
  split.
  - intros n Hdel Hup. apply Hlinked in Hdel as (c & Hin).
    apply elem_of_files_to_upload in Hup as (c' & Hin' & Hnot).
    exists c, c'. split_and!; [done..| |done]. intros ->. done.
  - intros Hsame n Hdel Hup. apply Hlinked in Hdel as (c & Hin).
    apply elem_of_files_to_upload in Hup as (c' & Hin' & Hnot).
    apply Hnot, Hsame; [done|]. simpl.
    apply list_elem_of_fmap. by exists (file n c).
Qed.

(** C10. When the names of the local inventory are unique, every name
    that [get_changed_content_files] returns is returned by
    [get_missing_files] too, and with [force] the names that
    [get_links_to_delete] returns are the missing names. *)
Theorem changed_content_files_are_missing
    record_id base_dir_path upload_dir_path remote local s :
  unique_names local →
  remote_inventory record_id remote →
  local_inventory base_dir_path upload_dir_path local →
  ∃ changed missing to_delete,
    (get_changed_content_files record_id base_dir_path upload_dir_path s).1
      = inr changed ∧
    (get_missing_files record_id base_dir_path upload_dir_path s).1 = inr missing ∧
    (get_links_to_delete record_id base_dir_path upload_dir_path true s).1
      = inr to_delete ∧
    (∀ n, n ∈ changed → n ∈ missing) ∧
    (list_to_set to_delete : gset string) = list_to_set missing.
Proof.
  intros Hunique Hremote Hlocal.
  exists (changed_content_files remote local), (missing_files remote local).
  eexists. split_and!.
  - by rewrite (get_changed_content_files_run _ _ _ remote local).
  - by rewrite (get_missing_files_run _ _ _ remote local).
  - by apply get_links_to_delete_run.
  - apply changed_content_files_missing_files. done.
  - apply set_eq. intros n.
    rewrite !elem_of_list_to_set, elem_of_remove_duplicates, elem_of_app.
    pose proof (changed_content_files_missing_files remote local Hunique n).
    tauto.
Qed.

(** C4. A name that is linked once, and whose one local file of that
    name has another checksum, is in the links to delete and in the files
    to upload, whatever [force] is; when it is the only entry on both
    sides, as for the remote inventory {(a,1)} and the local inventory
    {(a,2)}, both results are that one name. *)
Theorem changed_content_resynced
    record_id base_dir_path upload_dir_path remote local n c c' force s :
  remote_inventory record_id remote →
  local_inventory base_dir_path upload_dir_path local →
  filter (λ f, name f = n) remote = [file n c] →
  filter (λ f, name f = n) local = [file n c'] →
  c ≠ c' →
  ∃ to_delete to_upload,
    (get_links_to_delete record_id base_dir_path upload_dir_path force s).1
      = inr to_delete ∧
    (get_files_to_upload record_id base_dir_path upload_dir_path s).1
      = inr to_upload ∧
    n ∈ to_delete ∧ n ∈ to_upload ∧
    (remote = [file n c] → local = [file n c'] →
     to_delete = [n] ∧ to_upload = [n]).
Proof.
  intros Hremote Hlocal Hone_remote Hone_local Hne.
  eexists. exists (files_to_upload local remote).
  split; [by apply get_links_to_delete_run|].
  split; [by rewrite (get_files_to_upload_run _ _ _ remote local)|].
  assert (Hchanged : n ∈ changed_content_files remote local).
  { apply elem_of_changed_content_files. exists c. split.
    - assert (file n c ∈ filter (λ f, name f = n) remote) as Hin
        by (rewrite Hone_remote; left).
      by apply list_elem_of_filter in Hin as [_ Hin].
    - unfold same_name_different_content_files.
      rewrite (list_filter_iff _ (λ f, checksum f ≠ c ∧ name f = n))
        by (intros f; tauto).
      rewrite <- (list_filter_filter (λ f, checksum f ≠ c) (λ f, name f = n)).
      rewrite Hone_local. rewrite filter_cons_True by (simpl; congruence). done. }
  split_and!.
  - apply elem_of_remove_duplicates, elem_of_app. by left.
  - apply elem_of_files_to_upload. exists c'. split.
    + assert (file n c' ∈ filter (λ f, name f = n) local) as Hin
        by (rewrite Hone_local; left).
      by apply list_elem_of_filter in Hin as [_ Hin].
    + intros Hin.
      assert (file n c' ∈ filter (λ f, name f = n) remote) as Hin'
        by (by apply list_elem_of_filter).
      rewrite Hone_remote in Hin'. apply list_elem_of_singleton in Hin'.
      unfold file in Hin'. congruence.
  - intros -> ->. split.
    + assert (changed_content_files [file n c] [file n c'] = [n]) as ->.
      { unfold changed_content_files. cbn [changed_content_loop].
        unfold same_name_different_content_files.
        rewrite filter_cons_True by (simpl; split; congruence).
        by rewrite filter_nil. }
      assert (missing_files [file n c] [file n c'] = [n]) as ->.
      { unfold missing_files. rewrite filter_cons_True; [done|].
        rewrite list_elem_of_singleton. unfold file. congruence. }
      apply remove_duplicates_singleton. intros m.
      destruct force; simpl; rewrite ?elem_of_cons, ?elem_of_nil; tauto.
    + unfold files_to_upload. rewrite filter_cons_True; [done|].
      rewrite list_elem_of_singleton. unfold file. congruence.
Qed.

(** C5. [get_changed_content_files] does not raise when both inventories
    are read.  A name is in its result exactly when, for a remote entry of
    that name, exactly one local entry has the name with another checksum.
    A name all of whose remote entries have two or more such local entries
    is not in the result.  For the remote inventory {(a,1)} and the local
    entries (a,2) and (a,3), the result is empty, and [a] is a link to
    delete only when [force] is true. *)
Theorem changed_content_files_exactly_one
    record_id base_dir_path upload_dir_path remote local s :
  remote_inventory record_id remote →
  local_inventory base_dir_path upload_dir_path local →
  ∃ changed,
    (get_changed_content_files record_id base_dir_path upload_dir_path s).1
      = inr changed ∧
    (∀ n, n ∈ changed ↔
          ∃ c f, file n c ∈ remote ∧
                 filter (λ f, name f = n ∧ checksum f ≠ c) local = [f]) ∧
    (∀ n, (∀ c, file n c ∈ remote →
                (2 ≤ length (filter (λ f, name f = n ∧ checksum f ≠ c) local))%nat) →
          n ∉ changed) ∧
    (remote = [file "a" "1"] → local = [file "a" "2"; file "a" "3"] →
     changed = [] ∧
     (get_links_to_delete record_id base_dir_path upload_dir_path false s).1
       = inr [] ∧
     (get_links_to_delete record_id base_dir_path upload_dir_path true s).1
       = inr ["a"]).
Proof.
  intros Hremote Hlocal. exists (changed_content_files remote local).
  split; [by rewrite (get_changed_content_files_run _ _ _ remote local)|].
  split_and!.
  - intros n. rewrite elem_of_changed_content_files.
    unfold same_name_different_content_files. split.
    + intros (c & Hin & Hone). exists c.
      destruct (filter _ local) as [|f [|g l]]; [done| |done]. by exists f.
    + intros (c & f & Hin & Hone). exists c. by rewrite Hone.
  - intros n Hmany Hn.
    apply elem_of_changed_content_files in Hn as (c & Hin & Hone).
    specialize (Hmany c Hin).
    unfold same_name_different_content_files in Hone. lia.
  - intros -> ->.
    rewrite !(get_links_to_delete_run _ _ _ _
                [file "a" "1"] [file "a" "2"; file "a" "3"]) by done.
    done.
Qed.

(** C6.  When the remote inventory has the same (name, checksum) pairs as
    the local inventory, there is no link to delete and no file to upload,
    whatever [force] is.  The names of an inventory are unique: a directory
    holds one file of a name, and the archive one link of a name. *)
Theorem identical_inventories_in_sync
    record_id base_dir_path upload_dir_path remote local force s :
  unique_names local →
  (∀ f, f ∈ remote ↔ f ∈ local) →
  remote_inventory record_id remote →
  local_inventory base_dir_path upload_dir_path local →
  (get_links_to_delete record_id base_dir_path upload_dir_path force s).1 = inr [] ∧
  (get_files_to_upload record_id base_dir_path upload_dir_path s).1 = inr [].
Proof.
  intros Hunique Hsame Hremote Hlocal.
  rewrite (get_links_to_delete_run _ _ _ _ remote local) by done.
  rewrite (get_files_to_upload_run _ _ _ remote local) by done. simpl.
  assert (missing_files remote local = []) as Hmissing.
  { unfold missing_files. rewrite filter_none; [done|].
    intros f Hf Hnot. by apply Hnot, Hsame. }
  assert (changed_content_files remote local = []) as ->.
  { apply elem_of_nil_inv. intros n Hn.
    apply changed_content_files_missing_files in Hn; [|done].
    rewrite Hmissing in Hn. by apply elem_of_nil in Hn. }
  rewrite Hmissing. split.
  - by destruct force.
  - unfold files_to_upload. rewrite filter_none; [done|].
    intros f Hf Hnot. by apply Hnot, Hsame.
Qed.

End Decisions.

(** C1 on the archive with the links x.csv and y.csv against a directory
    with x.csv and z.csv, forced. *)
Lemma get_links_to_delete_union_scenario :
  remote_inventory (H := scenario_archive) "v2"
    [file "x.csv" "aaa"; file "y.csv" "bbb"] ∧
  local_inventory (H := scenario_archive) "." "upload"
    [file "x.csv" "aaa"; file "z.csv" "ccc"] ∧
  ∃ changed missing to_delete,
    (get_changed_content_files "v2" "." "upload"
       (start scenario_archive example_draft)).1 = inr changed ∧
    (get_missing_files "v2" "." "upload"
       (start scenario_archive example_draft)).1 = inr missing ∧
    (get_links_to_delete "v2" "." "upload" true
       (start scenario_archive example_draft)).1 = inr to_delete ∧
    NoDup to_delete ∧
    (list_to_set to_delete : gset string) =
      list_to_set changed ∪ list_to_set missing ∧
    (∀ n, n ∈ missing ↔
          ∃ c, file n c ∈ [file "x.csv" "aaa"; file "y.csv" "bbb"] ∧
               file n c ∉ [file "x.csv" "aaa"; file "z.csv" "ccc"]).
Proof.
  assert (Hremote : remote_inventory (H := scenario_archive) "v2"
            [file "x.csv" "aaa"; file "y.csv" "bbb"])
    by (apply example_remote_inventory; lia).
  assert (Hlocal : local_inventory (H := scenario_archive) "." "upload"
            [file "x.csv" "aaa"; file "z.csv" "ccc"])
    by reflexivity.
  split; [exact Hremote|]. split; [exact Hlocal|].
  exact (get_links_to_delete_union (H := scenario_archive) "v2" "." "upload"
           _ _ true (start scenario_archive example_draft) Hremote Hlocal).
Defined.

(** C2 on the archive with the link y.csv against a directory with z.csv:
    the file is uploaded, and the link is deleted when forced. *)
Lemma get_files_to_upload_exact_disjoint :
  remote_inventory (H := disjoint_archive) "v2" [file "y.csv" "bbb"] ∧
  local_inventory (H := disjoint_archive) "." "upload" [file "z.csv" "ccc"] ∧
  (get_files_to_upload "v2" "." "upload" (start disjoint_archive example_draft)).1
    = inr ["z.csv"] ∧
  ∃ to_delete,
    (get_links_to_delete "v2" "." "upload" true
       (start disjoint_archive example_draft)).1 = inr to_delete ∧
    (list_to_set to_delete : gset string) = {[ "y.csv" ]}.
Proof.
  assert (Hremote : remote_inventory (H := disjoint_archive) "v2"
            [file "y.csv" "bbb"])
    by (apply example_remote_inventory; lia).
  assert (Hlocal : local_inventory (H := disjoint_archive) "." "upload"
            [file "z.csv" "ccc"])
    by reflexivity.
  split; [exact Hremote|]. split; [exact Hlocal|].
  destruct (get_files_to_upload_exact (H := disjoint_archive) "v2" "." "upload"
              _ _ (start disjoint_archive example_draft) Hremote Hlocal)
    as (to_upload & missing & Hup & Hmissing & _ & _ & Hdisjoint).
  destruct Hdisjoint as [Hall Hdel].
  { intros n Hy Hz. simpl in Hy, Hz.
    apply list_elem_of_singleton in Hy, Hz. subst n. discriminate Hz. }
  split; [by rewrite Hup, Hall|].
  destruct (Hdel true) as (to_delete & Hrun & Hset).
  exists to_delete. split; [done|]. rewrite Hset.
  vm_compute in Hmissing. injection Hmissing as <-.
  apply list_to_set_singleton_L.
Defined.

(** C3 as stated fails: on the archive with the link (a,1) against a
    directory with (a,2), the name a is a link to delete and a file to
    upload. *)
Lemma links_to_delete_files_to_upload_not_disjoint :
  ¬ (∀ to_delete to_upload,
       (get_links_to_delete "v2" "." "upload" false
          (start resync_archive example_draft)).1 = inr to_delete →
       (get_files_to_upload "v2" "." "upload"
          (start resync_archive example_draft)).1 = inr to_upload →
       ∀ n, n ∈ to_delete → n ∉ to_upload).
Proof.
  intros Hdisjoint.
  apply (Hdisjoint ["a"] ["a"] eq_refl eq_refl "a"); left.
Qed.

(** C3 as the code has it, on the archive with the links x.csv and y.csv
    against a directory with x.csv and z.csv: no name is deleted and
    uploaded. *)
Lemma links_to_delete_files_to_upload_overlap_scenario :
  remote_inventory (H := scenario_archive) "v2"
    [file "x.csv" "aaa"; file "y.csv" "bbb"] ∧
  local_inventory (H := scenario_archive) "." "upload"
    [file "x.csv" "aaa"; file "z.csv" "ccc"] ∧
  (get_links_to_delete "v2" "." "upload" true
     (start scenario_archive example_draft)).1 = inr ["y.csv"] ∧
  (get_files_to_upload "v2" "." "upload"
     (start scenario_archive example_draft)).1 = inr ["z.csv"] ∧
  ∀ n, n ∈ ["y.csv"] → n ∉ ["z.csv"].
Proof.
  assert (Hremote : remote_inventory (H := scenario_archive) "v2"
            [file "x.csv" "aaa"; file "y.csv" "bbb"])
    by (apply example_remote_inventory; lia).
  assert (Hlocal : local_inventory (H := scenario_archive) "." "upload"
            [file "x.csv" "aaa"; file "z.csv" "ccc"])
    by reflexivity.
  split; [exact Hremote|]. split; [exact Hlocal|].
  destruct (links_to_delete_files_to_upload_overlap (H := scenario_archive)
              "v2" "." "upload" _ _ true (start scenario_archive example_draft)
              Hremote Hlocal)
    as (to_delete & to_upload & Hdel & Hup & _ & Hdisjoint).
  vm_compute in Hdel. injection Hdel as <-.
  vm_compute in Hup. injection Hup as <-.
  split; [done|]. split; [done|].
  apply Hdisjoint. intros f Hf Hname.
  apply elem_of_cons in Hf as [->|Hf]; [left|].
  apply list_elem_of_singleton in Hf as ->. simpl in Hname.
  apply elem_of_cons in Hname as [Hname|Hname]; [done|].
  apply list_elem_of_singleton in Hname. done.
Defined.

(** C4 on the archive with the link (a,1) against a directory with (a,2). *)
Lemma changed_content_resynced_example :
  remote_inventory (H := resync_archive) "v2" [file "a" "1"] ∧
  local_inventory (H := resync_archive) "." "upload" [file "a" "2"] ∧
  ∀ force,
    (get_links_to_delete "v2" "." "upload" force
       (start resync_archive example_draft)).1 = inr ["a"] ∧
    (get_files_to_upload "v2" "." "upload"
       (start resync_archive example_draft)).1 = inr ["a"].
Proof.
  assert (Hremote : remote_inventory (H := resync_archive) "v2" [file "a" "1"])
    by (apply example_remote_inventory; lia).
  assert (Hlocal : local_inventory (H := resync_archive) "." "upload"
            [file "a" "2"])
    by reflexivity.
  split; [exact Hremote|]. split; [exact Hlocal|]. intros force.
  destruct (changed_content_resynced (H := resync_archive) "v2" "." "upload"
              [file "a" "1"] [file "a" "2"] "a" "1" "2" force
              (start resync_archive example_draft) Hremote Hlocal
              eq_refl eq_refl)
    as (to_delete & to_upload & Hdel & Hup & _ & _ & Hboth); [done|].
  destruct Hboth as [-> ->]; done.
Defined.

(** C5 on the archive with the link (a,1) against the local entries (a,2)
    and (a,3). *)
Lemma changed_content_files_exactly_one_ambiguous :
  remote_inventory (H := ambiguous_archive) "v2" [file "a" "1"] ∧
  local_inventory (H := ambiguous_archive) "." "upload"
    [file "a" "2"; file "a" "3"] ∧
  (get_changed_content_files "v2" "." "upload"
     (start ambiguous_archive example_draft)).1 = inr [] ∧
  (get_links_to_delete "v2" "." "upload" false
     (start ambiguous_archive example_draft)).1 = inr [] ∧
  (get_links_to_delete "v2" "." "upload" true
     (start ambiguous_archive example_draft)).1 = inr ["a"].
Proof.
  assert (Hremote : remote_inventory (H := ambiguous_archive) "v2" [file "a" "1"])
    by (apply example_remote_inventory; lia).
  assert (Hlocal : local_inventory (H := ambiguous_archive) "." "upload"
            [file "a" "2"; file "a" "3"])
    by reflexivity.
  split; [exact Hremote|]. split; [exact Hlocal|].
  destruct (changed_content_files_exactly_one (H := ambiguous_archive)
              "v2" "." "upload" _ _ (start ambiguous_archive example_draft)
              Hremote Hlocal)
    as (changed & Hrun & _ & _ & Hexample).
  destruct (Hexample eq_refl eq_refl) as (-> & Hno & Hforce). done.
Defined.

(** C6 on the archive whose links x.csv and z.csv are
    the files of the directory, in another order. *)
Lemma identical_inventories_in_sync_example :
  unique_names [file "z.csv" "ccc"; file "x.csv" "aaa"] ∧
  (∀ f, f ∈ [file "x.csv" "aaa"; file "z.csv" "ccc"] ↔
        f ∈ [file "z.csv" "ccc"; file "x.csv" "aaa"]) ∧
  remote_inventory (H := synced_archive) "v2"
    [file "x.csv" "aaa"; file "z.csv" "ccc"] ∧
  local_inventory (H := synced_archive) "." "upload"
    [file "z.csv" "ccc"; file "x.csv" "aaa"] ∧
  ∀ force,
    (get_links_to_delete "v2" "." "upload" force
       (start synced_archive example_draft)).1 = inr [] ∧
    (get_files_to_upload "v2" "." "upload"
       (start synced_archive example_draft)).1 = inr [].
Proof.
  assert (Hunique : unique_names [file "z.csv" "ccc"; file "x.csv" "aaa"]).
  { unfold unique_names. simpl. apply NoDup_cons. split.
    - intros Hin. apply list_elem_of_singleton in Hin. discriminate Hin.
    - apply NoDup_singleton. }
  assert (Hsame : ∀ f, f ∈ [file "x.csv" "aaa"; file "z.csv" "ccc"] ↔
                       f ∈ [file "z.csv" "ccc"; file "x.csv" "aaa"]).
  { intros f. rewrite !elem_of_cons, !elem_of_nil. tauto. }
  assert (Hremote : remote_inventory (H := synced_archive) "v2"
            [file "x.csv" "aaa"; file "z.csv" "ccc"])
    by (apply example_remote_inventory; lia).
  assert (Hlocal : local_inventory (H := synced_archive) "." "upload"
            [file "z.csv" "ccc"; file "x.csv" "aaa"])
    by reflexivity.
  split; [exact Hunique|]. split; [exact Hsame|].
  split; [exact Hremote|]. split; [exact Hlocal|]. intros force.
  exact (identical_inventories_in_sync (H := synced_archive)
           "v2" "." "upload" _ _ force _ Hunique Hsame Hremote Hlocal).
Defined.

(** C10 on the archive with the links x.csv and y.csv against a directory
    with x.csv and z.csv. *)
Lemma changed_content_files_are_missing_scenario :
  unique_names [file "x.csv" "aaa"; file "z.csv" "ccc"] ∧
  remote_inventory (H := scenario_archive) "v2"
    [file "x.csv" "aaa"; file "y.csv" "bbb"] ∧
  local_inventory (H := scenario_archive) "." "upload"
    [file "x.csv" "aaa"; file "z.csv" "ccc"] ∧
  ∃ missing to_delete,
    (get_missing_files "v2" "." "upload"
       (start scenario_archive example_draft)).1 = inr missing ∧
    (get_links_to_delete "v2" "." "upload" true
       (start scenario_archive example_draft)).1 = inr to_delete ∧
    (list_to_set to_delete : gset string) = list_to_set missing.
Proof.
  assert (Hunique : unique_names [file "x.csv" "aaa"; file "z.csv" "ccc"]).
  { unfold unique_names. simpl. apply NoDup_cons. split.
    - intros Hin. apply list_elem_of_singleton in Hin. discriminate Hin.
    - apply NoDup_singleton. }
  assert (Hremote : remote_inventory (H := scenario_archive) "v2"
            [file "x.csv" "aaa"; file "y.csv" "bbb"])
    by (apply example_remote_inventory; lia).
  assert (Hlocal : local_inventory (H := scenario_archive) "." "upload"
            [file "x.csv" "aaa"; file "z.csv" "ccc"])
    by reflexivity.
  split; [exact Hunique|]. split; [exact Hremote|]. split; [exact Hlocal|].
  destruct (changed_content_files_are_missing (H := scenario_archive)
              "v2" "." "upload" _ _ (start scenario_archive example_draft)
              Hunique Hremote Hlocal)
    as (changed & missing & to_delete & _ & Hmissing & Hdel & _ & Hset).
  exists missing, to_delete.
  split; [exact Hmissing|]. split; [exact Hdel|exact Hset].
Defined.

(** ** HTTP errors *)

Section Errors.

Context `{Environment}.

Implicit Types (s : ClientState) (req : Request).

Lemma status_checked_json req :
  status_checked
    (response <- send req ;; raise_for_status response ;;; response_json response)
    req.
Proof.
  intros s. rewrite checked_json_run. unfold ok, checked_json. simpl.
  split; [done|]. destruct (is_error_status _); simpl.
  - split; [done|]. intros [=].
  - split; [intros [=]|]. intros _ r. by destruct (content _).
Qed.

Lemma status_checked_unit req :
  status_checked (response <- send req ;; raise_for_status response) req.
Proof.
  intros s. rewrite checked_run. unfold ok, checked. simpl.
  split; [done|]. destruct (is_error_status _); simpl.
  - split; [done|]. intros [=].
  - split; [intros [=]|]. done.
Qed.

Lemma linked_files_in_error (r : Response) :
  ok r = false → linked_files_in r = inl (HTTPError r).
Proof.
  unfold ok, linked_files_in, checked_json. by destruct (is_error_status r).
Qed.

Lemma linked_files_read_error record_id :
  propagates_read_error (get_name_to_checksum_for_linked_files record_id) record_id.
Proof.
  intros s Herror. rewrite get_name_to_checksum_for_linked_files_run.
  by rewrite linked_files_in_error.
Qed.

(** C7, as the code has it.  Every remote operation of the client sends
    its one request and raises the HTTP error of the response exactly when
    the status is an error status, from 400 to 599, which is when
    [raise_for_status] raises; for [post_records] and [put_content] that is
    once the metadata file and the data file were read, and for
    [get_records] once the size was converted.  When the read of the links
    fails so, [get_files],
    [get_name_to_checksum_for_linked_files], [get_links],
    [get_missing_files], [get_changed_content_files], [get_links_to_delete]
    and [get_files_to_upload] raise that same error after that one request:
    none of them sends the request again or handles the error.  The same
    holds for the second read of [get_links_to_delete] under [force]. *)
Theorem http_errors_propagate
    (record_id base_dir_path upload_dir_path metadata_file_path filename : string)
    (filenames : list string) (metadata : json)
    (all_versions : bool) (all_versions_text : string) (response_size : Z)
    (force : bool) :
  ((∀ full_metadata,
      generate_full_metadata (os_path_join [base_dir_path; metadata_file_path])
        = inr full_metadata →
      status_checked (post_records base_dir_path metadata_file_path)
        (request POST "/api/records" (JsonPayload full_metadata))) ∧
   status_checked (post_files record_id filenames)
     (request POST ("/api/records/" +:+ record_id +:+ "/draft/files")
        (JsonPayload (JArr ((λ filename, JObj {[ "key" := JStr filename ]})
                              <$> filenames)))) ∧
   (file_exists (os_path_join [base_dir_path; upload_dir_path; filename]) = true →
    status_checked (put_content record_id base_dir_path upload_dir_path filename)
      (request PUT
         ("/api/records/" +:+ record_id +:+ "/draft/files/" +:+ filename
            +:+ "/content")
         (FilePayload (os_path_join [base_dir_path; upload_dir_path; filename])))) ∧
   status_checked (post_commit record_id filename)
     (request POST
        ("/api/records/" +:+ record_id +:+ "/draft/files/" +:+ filename +:+ "/commit")
        NoPayload) ∧
   status_checked (get_draft record_id) (get_draft_request record_id) ∧
   status_checked (put_draft record_id metadata)
     (put_draft_request record_id metadata) ∧
   status_checked (delete_draft record_id)
     (request DELETE ("/api/records/" +:+ record_id +:+ "/draft") NoPayload) ∧
   status_checked (post_publish record_id)
     (request POST ("/api/records/" +:+ record_id +:+ "/draft/actions/publish")
        NoPayload) ∧
   status_checked (get_record record_id)
     (request GET ("/api/records/" +:+ record_id) NoPayload) ∧
   status_checked (get_records all_versions_text (inr response_size))
     (request GET
        ("/api/records?allversions=" +:+ all_versions_text
           +:+ "&size=" +:+ pretty response_size)
        NoPayload) ∧
   status_checked (post_draft record_id)
     (request POST ("/api/records/" +:+ record_id +:+ "/draft") NoPayload) ∧
   status_checked (post_versions record_id)
     (request POST ("/api/records/" +:+ record_id +:+ "/versions") NoPayload) ∧
   status_checked (get_files record_id) (get_files_request record_id) ∧
   status_checked (delete_filename record_id filename)
     (request DELETE ("/api/records/" +:+ record_id +:+ "/draft/files/" +:+ filename)
        NoPayload) ∧
   status_checked (post_file_import record_id)
     (request POST
        ("/api/records/" +:+ record_id +:+ "/draft/actions/files-import")
        NoPayload) ∧
   status_checked (get_user_records all_versions response_size)
     (request GET
        ("/api/user/records?allversions="
           +:+ (if all_versions then "True" else "False")
           +:+ "&size=" +:+ pretty response_size)
        NoPayload)) ∧
  (propagates_read_error (get_files record_id) record_id ∧
   propagates_read_error (get_name_to_checksum_for_linked_files record_id)
     record_id ∧
   propagates_read_error (get_links record_id) record_id ∧
   propagates_read_error
     (get_missing_files record_id base_dir_path upload_dir_path) record_id ∧
   propagates_read_error
     (get_changed_content_files record_id base_dir_path upload_dir_path) record_id ∧
   propagates_read_error
     (get_links_to_delete record_id base_dir_path upload_dir_path force) record_id ∧
   (∀ local, local_inventory base_dir_path upload_dir_path local →
      propagates_read_error
        (get_files_to_upload record_id base_dir_path upload_dir_path) record_id)) ∧
  (∀ s remote local,
     linked_files_in (response_to (get_files_request record_id) s) = inr remote →
     local_inventory base_dir_path upload_dir_path local →
     ok (response_to (get_files_request record_id)
           (state_after (get_files_request record_id) s)) = false →
     get_links_to_delete record_id base_dir_path upload_dir_path true s =
     (inl (HTTPError (response_to (get_files_request record_id)
                        (state_after (get_files_request record_id) s))),
      state_after (get_files_request record_id)
        (state_after (get_files_request record_id) s))).
Proof.
  split; [|split].
  - split_and!; try apply status_checked_json; try apply status_checked_unit.
    + intros full_metadata Hmeta s. unfold post_records, bind at 1, lift.
      rewrite Hmeta. apply status_checked_json.
    + intros Hexists s. unfold put_content, bind at 1. rewrite Hexists.
      apply status_checked_json.
  - pose proof (linked_files_read_error record_id) as Hread. split_and!.
    + intros s Herror. rewrite get_files_run. unfold ok, checked_json in *.
      by destruct (is_error_status _).
    + done.
    + intros s Herror. unfold get_links, bind. by rewrite Hread.
    + intros s Herror. unfold get_missing_files, bind. by rewrite Hread.
    + intros s Herror. unfold get_changed_content_files, bind. by rewrite Hread.
    + intros s Herror. unfold get_links_to_delete, get_changed_content_files, bind.
      by rewrite Hread.
    + intros local Hlocal s Herror. unfold get_files_to_upload, bind, lift.
      rewrite Hlocal. by rewrite Hread.
  - intros s remote local Hremote Hlocal Herror.
    unfold get_links_to_delete, get_changed_content_files, get_missing_files, bind.
    rewrite get_name_to_checksum_for_linked_files_run, Hremote.
    unfold lift. rewrite Hlocal. unfold ret.
    by rewrite (linked_files_read_error record_id _ Herror).
Qed.

End Errors.

(** C7 on the archive that answers with the status 404: the forced
    computation of the links to delete raises that HTTP error after its
    first request. *)
Lemma http_errors_propagate_not_found :
  ok (response_to (get_files_request "v2") (start failing_archive example_draft))
    = false ∧
  get_links_to_delete "v2" "." "upload" true (start failing_archive example_draft)
  = (inl (HTTPError {| status_code := 404;
                       content := Some (with_entries [file "a" "1"] example_draft) |}),
     @Build_ClientState failing_archive example_draft [get_files_request "v2"]).
Proof.
  split; [reflexivity|].
  destruct (http_errors_propagate (H := failing_archive)
              "v2" "." "upload" "metadata.yaml" "a" ["a"] JNull false "False" 10 true)
    as (_ & (_ & _ & _ & _ & _ & Hdelete & _) & _).
  exact (Hdelete (start failing_archive example_draft) eq_refl).
Defined.

(** C7 as stated fails: on the archive that answers with the status 304,
    which is no success status, the read of the links raises no HTTP
    error. *)
Lemma not_modified_raises_no_error :
  ¬ (is_success_status
       (response_to (get_files_request "v2")
          (start not_modified_archive example_draft)) = false →
     ∃ r, (get_files "v2" (start not_modified_archive example_draft)).1
          = inl (HTTPError r)).
Proof.
  intros Hclaim. destruct (Hclaim eq_refl) as [r Hraised].
  vm_compute in Hraised. discriminate Hraised.
Qed.

(** ** The transitions of [main.py] *)

Section MainTransitions.

Context `{Environment}.

Implicit Types (s : ClientState).

Lemma post_versions_run record_id s :
  post_versions record_id s =
  (checked_json (response_to (post_versions_request record_id) s),
   state_after (post_versions_request record_id) s).
Proof. apply checked_json_run. Qed.


(** C8, where the code departs from it.  In the new-version transition
    the one request that [update_a_published_record] sends is the creation
    of the new draft.  When the archive creates the draft and answers with
    its id, the call of [update_metadata] raises [TypeError]: the metadata,
    the import and the deletion of the links, the upload and the
    publication never come, and the transition never returns an id. *)
Theorem new_version_stops_after_the_draft
    base_dir record_id input_dir metadata_filename (force publish : bool) s :
  (update_a_published_record base_dir record_id true input_dir metadata_filename
     force publish s).2 = state_after (post_versions_request record_id) s ∧
  (∀ id,
     (update_a_published_record base_dir record_id true input_dir
        metadata_filename force publish s).1 ≠ inr id) ∧
  (∀ response new_id,
     checked_json (response_to (post_versions_request record_id) s)
       = inr response →
     getitem response "id" = inr new_id →
     (update_a_published_record base_dir record_id true input_dir
        metadata_filename force publish s).1 = inl TypeError).
Proof.
  unfold update_a_published_record. cbn [negb]. unfold bind at 1 3 5.
  rewrite post_versions_run.
  destruct (checked_json (response_to (post_versions_request record_id) s))
    as [e|response]; simpl.
  - split; [done|]. split; [done|]. by intros response new_id [=].
  - unfold bind, lift, too_many_arguments, raise.
    destruct (getitem response "id") as [e|new_id] eqn:Hid; simpl.
    + split; [done|]. split; [done|]. intros r i [= <-]. by rewrite Hid.
    + split; [done|]. split; [done|]. done.
Qed.


End MainTransitions.

(** C8 on the archive with the draft v2: the new version of the record v1
    is created, and the transition raises. *)
Lemma new_version_stops_after_the_draft_example :
  (update_a_published_record "." "v1" true "upload" "metadata.yaml" true true
     (start scenario_archive example_draft)).1 = inl TypeError ∧
  log (update_a_published_record "." "v1" true "upload" "metadata.yaml" true true
         (start scenario_archive example_draft)).2
    = [post_versions_request "v1"].
Proof.
  destruct (new_version_stops_after_the_draft (H := scenario_archive)
              "." "v1" "upload" "metadata.yaml" true true
              (start scenario_archive example_draft))
    as (Hstate & _ & Hraises).
  split.
  - by apply (Hraises
                (with_entries [file "x.csv" "aaa"; file "y.csv" "bbb"] example_draft)
                (JStr "v2")).
  - by rewrite Hstate.
Defined.


(** ** The publication date *)

Section PublicationDate.

Context `{Environment}.

Implicit Types (s : ClientState) (d m : gmap string json).

Lemma get_draft_run record_id s :
  get_draft record_id s =
  (checked_json (response_to (get_draft_request record_id) s),
   state_after (get_draft_request record_id) s).
Proof. apply checked_json_run. Qed.

Lemma put_draft_run record_id metadata s :
  put_draft record_id metadata s =
  (checked_json (response_to (put_draft_request record_id metadata) s),
   state_after (put_draft_request record_id metadata) s).
Proof. apply checked_json_run. Qed.

(** What [insert_publication_date] does with a draft [d] whose metadata are
    [m]: one read, then one write of the stamped document. *)
Lemma insert_publication_date_run record_id s d m :
  checked_json (response_to (get_draft_request record_id) s) = inr (JObj d) →
  d !! "metadata" = Some (JObj m) →
  let stamped :=
    JObj (<["metadata" := JObj (<["publication_date" := JStr today]> m)]> d) in
  let s1 := state_after (get_draft_request record_id) s in
  insert_publication_date record_id s =
  (match checked_json (response_to (put_draft_request record_id stamped) s1) with
   | inl e => inl e
   | inr _ => inr tt
   end,
   state_after (put_draft_request record_id stamped) s1).
Proof.
  intros Hget Hmeta. simpl. unfold insert_publication_date, bind.
  rewrite get_draft_run, Hget. unfold lift, getitem. rewrite Hmeta.
  simpl. rewrite put_draft_run.
  destruct (checked_json (response_to (put_draft_request _ _) _)); reflexivity.
Qed.

(** C9. When the archive answers the read of a draft with a document [d]
    whose metadata are [m], [insert_publication_date] sends that read and
    then one write of a document [d'] with metadata [m'], where the
    publication date of [m'] is today's date, every other field of [m'] is
    the field of [m], and every field of [d'] but the metadata is the field
    of [d]; it raises when the write fails.  When it is called again on the
    same day and the archive answers the read with the document written,
    the same document is written again. *)
Theorem insert_publication_date_frame record_id s d m :
  checked_json (response_to (get_draft_request record_id) s) = inr (JObj d) →
  d !! "metadata" = Some (JObj m) →
  ∃ d' m',
    (insert_publication_date record_id s).2 =
      state_after (put_draft_request record_id (JObj d'))
        (state_after (get_draft_request record_id) s) ∧
    (insert_publication_date record_id s).1 =
      match checked_json
              (response_to (put_draft_request record_id (JObj d'))
                 (state_after (get_draft_request record_id) s)) with
      | inl e => inl e
      | inr _ => inr tt
      end ∧
    d' !! "metadata" = Some (JObj m') ∧
    m' !! "publication_date" = Some (JStr today) ∧
    (∀ k, k ≠ "publication_date" → m' !! k = m !! k) ∧
    (∀ k, k ≠ "metadata" → d' !! k = d !! k) ∧
    (∀ s2,
       checked_json (response_to (get_draft_request record_id) s2)
         = inr (JObj d') →
       (insert_publication_date record_id s2).2 =
         state_after (put_draft_request record_id (JObj d'))
           (state_after (get_draft_request record_id) s2)).
Proof.
  intros Hget Hmeta.
  exists (<["metadata" := JObj (<["publication_date" := JStr today]> m)]> d),
         (<["publication_date" := JStr today]> m).
  rewrite (insert_publication_date_run record_id s d m Hget Hmeta). simpl.
  split_and!; [done|done| | | | |].
  - apply lookup_insert_eq.
  - apply lookup_insert_eq.
  - intros k Hk. by apply lookup_insert_ne.
  - intros k Hk. by apply lookup_insert_ne.
  - intros s2 Hget2.
    rewrite (insert_publication_date_run record_id s2 _
               (<["publication_date" := JStr today]> m) Hget2)
      by apply lookup_insert_eq.
    simpl. by rewrite !insert_insert_eq.
Qed.

End PublicationDate.

(** C9 on the archive with the draft v2, titled Cells: the document written
    has the publication date, the title and the id. *)
Lemma insert_publication_date_frame_example :
  checked_json (response_to (get_draft_request "v2")
                  (start resync_archive example_draft))
    = inr (with_entries [file "a" "1"] example_draft) ∧
  ∃ d' m',
    log (insert_publication_date "v2" (start resync_archive example_draft)).2
      = [get_draft_request "v2"; put_draft_request "v2" (JObj d')] ∧
    (insert_publication_date "v2" (start resync_archive example_draft)).1
      = inr () ∧
    d' !! "metadata" = Some (JObj m') ∧
    m' !! "publication_date" = Some (JStr "2020-06-01") ∧
    m' !! "title" = Some (JStr "Cells") ∧
    d' !! "id" = Some (JStr "v2").
Proof.
  split; [reflexivity|].
  destruct (insert_publication_date_frame (H := resync_archive) "v2"
              (start resync_archive example_draft)
              (<["entries" := JArr (entry_json <$> [file "a" "1"])]>
                 (<["id" := JStr "v2"]>
                    {["metadata" := JObj {["title" := JStr "Cells"]}]}))
              {["title" := JStr "Cells"]} eq_refl eq_refl)
    as (d' & m' & Hstate & Hresult & Hmeta & Hdate & Hframe & Hrest & _).
  exists d', m'. split_and!.
  - by rewrite Hstate.
  - by rewrite Hresult.
  - exact Hmeta.
  - exact Hdate.
  - by rewrite Hframe.
  - by rewrite Hrest.
Defined.

(** ** The order of the requests *)

Section Order.

Context `{Environment}.

Implicit Types (s : ClientState) (req : Request) (L : list Request).

Lemma traces_mono {A} (m : M A) (P Q : A → list Request → Prop) :
  traces m P → (∀ a L, P a L → Q a L) → traces m Q.
Proof.
  intros Hm HPQ s. destruct (Hm s) as (sent & Hlog & Hsent).
  exists sent. split; [done|]. destruct ((m s).1) as [e|a].
  - destruct Hsent as (a & L & HP & Hprefix). exists a, L. auto.
  - auto.
Qed.

(** Whether it returns or raises, a method that has a trace has a complete
    one. *)
Lemma traces_complete {A} (m : M A) (P : A → list Request → Prop) s :
  traces m P → ∃ a L, P a L.
Proof.
  intros Hm. destruct (Hm s) as (sent & _ & Hsent).
  destruct ((m s).1) as [e|a].
  - destruct Hsent as (a & L & HP & _). by exists a, L.
  - by exists a, sent.
Qed.

Lemma traces_bind {A B} (m : M A) (f : A → M B)
    (P : A → list Request → Prop) (Q : A → B → list Request → Prop) :
  traces m P →
  (∀ a, traces (f a) (Q a)) →
  traces (bind m f) (λ b L, ∃ a L1 L2, L = L1 ++ L2 ∧ P a L1 ∧ Q a b L2).
Proof.
  intros Hm Hf s. destruct (Hm s) as (sent1 & Hlog1 & Hsent1).
  unfold bind. destruct (m s) as [[e|a] s1]; simpl in *.
  - exists sent1. split; [done|].
    destruct Hsent1 as (a & L1 & HP & Hprefix).
    destruct (traces_complete (f a) (Q a) s (Hf a)) as (b & L2 & HQ).
    exists b, (L1 ++ L2). split; [by exists a, L1, L2|].
    by apply prefix_app_r.
  - destruct (Hf a s1) as (sent2 & Hlog2 & Hsent2).
    exists (sent1 ++ sent2). split.
    { by rewrite Hlog2, Hlog1, app_assoc. }
    destruct ((f a s1).1) as [e|b].
    + destruct Hsent2 as (b & L2 & HQ & Hprefix).
      exists b, (sent1 ++ L2). split; [by exists a, sent1, L2|].
      by apply prefix_app.
    + by exists a, sent1, sent2.
Qed.

Lemma traces_ret {A} (a : A) : traces (ret a) (λ b L, b = a ∧ L = []).
Proof. intros s. exists []. simpl. by rewrite app_nil_r. Qed.

Lemma traces_lift {A} `{Inhabited A} (r : Error + A) :
  traces (lift r) (λ _ L, L = []).
Proof.
  intros s. exists []. unfold lift. simpl. rewrite app_nil_r. split; [done|].
  destruct r; [|done]. by exists inhabitant, [].
Qed.

Lemma traces_raise {A} `{Inhabited A} (e : Error) :
  traces (raise (A := A) e) (λ _ L, L = []).
Proof. apply (traces_lift (inl e)). Qed.

Lemma traces_checked_json req :
  traces
    (response <- send req ;; raise_for_status response ;;; response_json response)
    (λ _ L, L = [req]).
Proof.
  intros s. exists [req]. rewrite checked_json_run. simpl. split; [done|].
  destruct (checked_json _); [|done]. by exists inhabitant, [req].
Qed.

Lemma traces_checked req :
  traces (response <- send req ;; raise_for_status response) (λ _ L, L = [req]).
Proof.
  intros s. exists [req]. rewrite checked_run. simpl. split; [done|].
  destruct (checked _); [|done]. by exists inhabitant, [req].
Qed.

(** A loop whose body sends the requests [reqs x] for the element [x]. *)
Lemma traces_for_each {A} (l : list A) (body : A → M unit)
    (reqs : A → list Request) :
  (∀ x, traces (body x) (λ _ L, L = reqs x)) →
  traces (for_each l body) (λ _ L, L = x ← l; reqs x).
Proof.
  intros Hbody. induction l as [|x l IH]; simpl.
  - eapply traces_mono; [apply traces_ret|]. by intros a L [_ ->].
  - eapply traces_mono; [apply traces_bind; [apply Hbody|intros u; apply IH]|].
    simpl. by intros a L (_ & L1 & L2 & -> & -> & ->).
Qed.

(** One step of a method: the first call, then the rest. *)
Ltac trace_step first_call :=
  apply traces_bind; [apply first_call|intros ?].

(** The same for a local step, which sends nothing. *)
Ltac trace_local :=
  apply traces_bind; [apply traces_lift|intros ?].

Lemma traces_get_files record_id :
  traces (get_files record_id) (λ _ L, L = [get_files_request record_id]).
Proof. apply traces_checked_json. Qed.

Lemma traces_post_files record_id filenames :
  traces (post_files record_id filenames)
    (λ _ L, L = [post_files_request record_id filenames]).
Proof. apply traces_checked_json. Qed.

Lemma traces_post_commit record_id filename :
  traces (post_commit record_id filename)
    (λ _ L, L = [post_commit_request record_id filename]).
Proof. apply traces_checked_json. Qed.

Lemma traces_delete_filename record_id filename :
  traces (delete_filename record_id filename)
    (λ _ L, L = [delete_filename_request record_id filename]).
Proof. apply traces_checked. Qed.

Lemma traces_put_content record_id base_dir_path upload_dir_path filename :
  traces (put_content record_id base_dir_path upload_dir_path filename)
    (λ _ L, L = [put_content_request record_id base_dir_path upload_dir_path filename]).
Proof.
  assert (Hopen : ∀ path,
    traces (if file_exists path then ret () else raise (OSError path))
      (λ _ L, L = [])).
  { intros path. destruct (file_exists path).
    - eapply traces_mono; [apply traces_ret|]. by intros u L [_ ->].
    - apply traces_raise. }
  unfold put_content. eapply traces_mono.
  - trace_step Hopen. apply traces_checked_json.
  - simpl. by intros u L (? & L1 & L2 & -> & -> & ->).
Qed.

Lemma traces_upload_files record_id base_dir_path upload_dir_path filenames :
  traces (upload_files record_id base_dir_path upload_dir_path filenames)
    (λ _ L, L = upload_requests record_id base_dir_path upload_dir_path filenames).
Proof.
  unfold upload_files. eapply traces_mono.
  - trace_step traces_post_files.
    apply (traces_for_each _ _
             (λ filename,
                [put_content_request record_id base_dir_path upload_dir_path filename;
                 post_commit_request record_id filename])).
    intros filename. eapply traces_mono.
    + trace_step traces_put_content. trace_step traces_post_commit.
      apply traces_ret.
    + simpl. by intros u L (? & L1 & L2 & -> & -> & ? & L3 & L4 & -> & -> & _ & ->).
  - simpl. by intros u L (? & L1 & L2 & -> & -> & ->).
Qed.

Lemma traces_delete_links record_id filenames :
  traces (delete_links record_id filenames)
    (λ _ L, L = delete_filename_request record_id <$> filenames).
Proof.
  unfold delete_links. eapply traces_mono.
  - apply (traces_for_each _ _ (λ filename, [delete_filename_request record_id filename])).
    intros filename. apply traces_delete_filename.
  - simpl. intros _ L ->. induction filenames as [|x l IH]; [done|].
    simpl. by f_equal.
Qed.

Lemma traces_linked_files record_id :
  traces (get_name_to_checksum_for_linked_files record_id)
    (λ _ L, L = [get_files_request record_id]).
Proof.
  unfold get_name_to_checksum_for_linked_files. eapply traces_mono.
  - trace_step traces_get_files. trace_local. apply traces_lift.
  - simpl. by intros u L (? & L1 & L2 & -> & -> & ? & L3 & L4 & -> & -> & ->).
Qed.

Lemma traces_get_links record_id :
  traces (get_links record_id) (λ _ L, L = [get_files_request record_id]).
Proof.
  unfold get_links. eapply traces_mono.
  - trace_step traces_linked_files. apply traces_ret.
  - simpl. by intros u L (? & L1 & L2 & -> & -> & _ & ->).
Qed.

Lemma traces_get_missing_files record_id base_dir_path upload_dir_path :
  traces (get_missing_files record_id base_dir_path upload_dir_path)
    (λ _ L, L = [get_files_request record_id]).
Proof.
  unfold get_missing_files. eapply traces_mono.
  - trace_step traces_linked_files. trace_local. apply traces_ret.
  - simpl. by intros u L (? & L1 & L2 & -> & -> & ? & L3 & L4 & -> & -> & _ & ->).
Qed.

Lemma traces_get_changed_content_files record_id base_dir_path upload_dir_path :
  traces (get_changed_content_files record_id base_dir_path upload_dir_path)
    (λ _ L, L = [get_files_request record_id]).
Proof.
  unfold get_changed_content_files. eapply traces_mono.
  - trace_step traces_linked_files. trace_local. apply traces_ret.
  - simpl. by intros u L (? & L1 & L2 & -> & -> & ? & L3 & L4 & -> & -> & _ & ->).
Qed.

Lemma traces_get_files_to_upload record_id base_dir_path upload_dir_path :
  traces (get_files_to_upload record_id base_dir_path upload_dir_path)
    (λ _ L, L = [get_files_request record_id]).
Proof.
  unfold get_files_to_upload. eapply traces_mono.
  - trace_local. trace_step traces_linked_files. apply traces_ret.
  - simpl. by intros u L (? & L1 & L2 & -> & -> & ? & L3 & L4 & -> & -> & _ & ->).
Qed.

Lemma traces_get_links_to_delete record_id base_dir_path upload_dir_path force :
  traces (get_links_to_delete record_id base_dir_path upload_dir_path force)
    (λ _ L, L = [get_files_request record_id] ++
                (if force then [get_files_request record_id] else [])).
Proof.
  assert (Hforce : ∀ filenames : list string,
    traces
      (if force
       then more <- get_missing_files record_id base_dir_path upload_dir_path ;;
            ret (filenames ++ more)
       else ret filenames)
      (λ _ L, L = if force then [get_files_request record_id] else [])).
  { intros filenames. destruct force.
    - eapply traces_mono.
      + trace_step traces_get_missing_files. apply traces_ret.
      + simpl. by intros u L (? & L1 & L2 & -> & -> & _ & ->).
    - eapply traces_mono; [apply traces_ret|]. by intros u L [_ ->]. }
  unfold get_links_to_delete. eapply traces_mono.
  - trace_step traces_get_changed_content_files.
    trace_step Hforce. apply traces_ret.
  - simpl. intros u L (? & L1 & L2 & -> & -> & ? & L3 & L4 & -> & -> & _ & ->).
    by rewrite app_nil_r.
Qed.

End Order.

(** ** What the decisions keep and what they drop *)

Section Kept.

Context `{Environment}.

Implicit Types (s : ClientState) (remote local : list FileRecord).
Implicit Types (record_id base_dir_path upload_dir_path n c : string).

(** X1.  Under [force], a link that is not deleted is the link of a file of the
    upload directory with that name and that content: no link to a file
    that is absent or changed survives. *)
Theorem forced_deletion_leaves_no_stale_link
    record_id base_dir_path upload_dir_path remote local s :
  remote_inventory record_id remote →
  local_inventory base_dir_path upload_dir_path local →
  ∃ to_delete,
    (get_links_to_delete record_id base_dir_path upload_dir_path true s).1
      = inr to_delete ∧
    ∀ f, f ∈ remote → name f ∉ to_delete → f ∈ local.
Proof.
  intros Hremote Hlocal. eexists. split; [by apply get_links_to_delete_run|].
  intros [n c] Hin Hkept. simpl in Hkept.
  destruct (decide (file n c ∈ local)) as [|Hnot]; [done|].
  exfalso. apply Hkept. apply elem_of_remove_duplicates, elem_of_app. right.
  apply elem_of_missing_files. by exists c.
Qed.

(** X2.  Without [force], only a link that has a file of the same name in the
    upload directory is deleted: the links of the files that are not in the
    directory stay. *)
Theorem unforced_deletion_needs_a_local_file
    record_id base_dir_path upload_dir_path remote local s :
  remote_inventory record_id remote →
  local_inventory base_dir_path upload_dir_path local →
  ∃ to_delete,
    (get_links_to_delete record_id base_dir_path upload_dir_path false s).1
      = inr to_delete ∧
    (∀ n, n ∈ to_delete → n ∈ name <$> remote ∧ n ∈ name <$> local) ∧
    (∀ f, f ∈ remote → name f ∉ name <$> local → name f ∉ to_delete).
Proof.
  intros Hremote Hlocal. eexists. split; [by apply get_links_to_delete_run|].
  assert (Hboth : ∀ n,
    n ∈ remove_duplicates (changed_content_files remote local ++ []) →
    n ∈ name <$> remote ∧ n ∈ name <$> local).
  { intros n Hn. rewrite app_nil_r in Hn.
    apply elem_of_remove_duplicates, elem_of_changed_content_files in Hn
      as (c & Hin & Hone).
    split; [apply list_elem_of_fmap; by exists (file n c)|].
    destruct (same_name_different_content_files local n c) as [|g l] eqn:Hsame;
      [done|].
    assert (g ∈ same_name_different_content_files local n c) as Hg
      by (rewrite Hsame; left).
    apply elem_of_same_name_different_content_files in Hg as (Hg & Hname & _).
    apply list_elem_of_fmap. by exists g. }
  split; [exact Hboth|].
  intros f Hf Habsent Hdel. by apply Habsent, Hboth.
Qed.

(** X3.  When the names are unique on both sides, a file that is linked with the
    content it has in the upload directory is neither unlinked nor uploaded
    again, whatever [force] is. *)
Theorem unchanged_files_are_left_alone
    record_id base_dir_path upload_dir_path remote local force s :
  unique_names remote →
  unique_names local →
  remote_inventory record_id remote →
  local_inventory base_dir_path upload_dir_path local →
  ∃ to_delete to_upload,
    (get_links_to_delete record_id base_dir_path upload_dir_path force s).1
      = inr to_delete ∧
    (get_files_to_upload record_id base_dir_path upload_dir_path s).1
      = inr to_upload ∧
    ∀ f, f ∈ remote → f ∈ local → (name f ∉ to_delete) ∧ (name f ∉ to_upload).
Proof.
  intros Hunique_remote Hunique_local Hremote Hlocal.
  eexists. exists (files_to_upload local remote).
  split; [by apply get_links_to_delete_run|].
  split; [by rewrite (get_files_to_upload_run _ _ _ remote local)|].
  intros [n c] Hin_remote Hin_local. simpl.
  assert (Hmissing : n ∉ missing_files remote local).
  { intros Hn. apply elem_of_missing_files in Hn as (c' & Hin & Hnot).
    by rewrite (unique_names_checksum remote n c' c) in Hnot. }
  split.
  - intros Hn. apply elem_of_remove_duplicates, elem_of_app in Hn as [Hn|Hn].
    + by apply Hmissing, changed_content_files_missing_files.
    + destruct force; [done|]. by apply elem_of_nil in Hn.
  - intros Hn. apply elem_of_files_to_upload in Hn as (c' & Hin & Hnot).
    by rewrite (unique_names_checksum local n c' c) in Hnot.
Qed.

(** X4.  Under [force], [get_links_to_delete] reads the links twice: the names
    with a changed content come from the first answer and the missing names
    from the second, also when the two answers differ. *)
Theorem get_links_to_delete_reads_twice
    record_id base_dir_path upload_dir_path remote1 remote2 local s :
  linked_files_in (response_to (get_files_request record_id) s) = inr remote1 →
  linked_files_in
    (response_to (get_files_request record_id)
       (state_after (get_files_request record_id) s)) = inr remote2 →
  local_inventory base_dir_path upload_dir_path local →
  ∃ to_delete,
    get_links_to_delete record_id base_dir_path upload_dir_path true s =
    (inr to_delete,
     state_after (get_files_request record_id)
       (state_after (get_files_request record_id) s)) ∧
    NoDup to_delete ∧
    ∀ n, n ∈ to_delete ↔
         n ∈ changed_content_files remote1 local ∨ n ∈ missing_files remote2 local.
Proof.
  intros Hfirst Hsecond Hlocal.
  exists (remove_duplicates
            (changed_content_files remote1 local ++ missing_files remote2 local)).
  split_and!.
  - unfold get_links_to_delete, get_changed_content_files, get_missing_files, bind.
    rewrite get_name_to_checksum_for_linked_files_run, Hfirst.
    unfold lift. rewrite Hlocal. unfold ret.
    rewrite get_name_to_checksum_for_linked_files_run, Hsecond.
    by rewrite Hlocal.
  - apply NoDup_remove_duplicates.
  - intros n. by rewrite elem_of_remove_duplicates, elem_of_app.
Qed.

End Kept.

(** On the archive with the links x.csv and y.csv against a directory with
    x.csv and z.csv, the forced deletion keeps x.csv only. *)
Lemma forced_deletion_leaves_no_stale_link_scenario :
  remote_inventory (H := scenario_archive) "v2"
    [file "x.csv" "aaa"; file "y.csv" "bbb"] ∧
  local_inventory (H := scenario_archive) "." "upload"
    [file "x.csv" "aaa"; file "z.csv" "ccc"] ∧
  ∃ to_delete,
    (get_links_to_delete "v2" "." "upload" true
       (start scenario_archive example_draft)).1 = inr to_delete ∧
    ∀ f, f ∈ [file "x.csv" "aaa"; file "y.csv" "bbb"] →
         name f ∉ to_delete → f ∈ [file "x.csv" "aaa"; file "z.csv" "ccc"].
Proof.
  assert (Hremote : remote_inventory (H := scenario_archive) "v2"
            [file "x.csv" "aaa"; file "y.csv" "bbb"])
    by (apply example_remote_inventory; lia).
  assert (Hlocal : local_inventory (H := scenario_archive) "." "upload"
            [file "x.csv" "aaa"; file "z.csv" "ccc"])
    by reflexivity.
  split; [exact Hremote|]. split; [exact Hlocal|].
  exact (forced_deletion_leaves_no_stale_link (H := scenario_archive)
           "v2" "." "upload" _ _ (start scenario_archive example_draft)
           Hremote Hlocal).
Defined.

(** On the same archive the deletion that is not forced deletes nothing:
    no name has a changed content. *)
Lemma unforced_deletion_needs_a_local_file_scenario :
  remote_inventory (H := scenario_archive) "v2"
    [file "x.csv" "aaa"; file "y.csv" "bbb"] ∧
  local_inventory (H := scenario_archive) "." "upload"
    [file "x.csv" "aaa"; file "z.csv" "ccc"] ∧
  ∃ to_delete,
    (get_links_to_delete "v2" "." "upload" false
       (start scenario_archive example_draft)).1 = inr to_delete ∧
    "y.csv" ∉ to_delete.
Proof.
  assert (Hremote : remote_inventory (H := scenario_archive) "v2"
            [file "x.csv" "aaa"; file "y.csv" "bbb"])
    by (apply example_remote_inventory; lia).
  assert (Hlocal : local_inventory (H := scenario_archive) "." "upload"
            [file "x.csv" "aaa"; file "z.csv" "ccc"])
    by reflexivity.
  split; [exact Hremote|]. split; [exact Hlocal|].
  destruct (unforced_deletion_needs_a_local_file (H := scenario_archive)
              "v2" "." "upload" _ _ (start scenario_archive example_draft)
              Hremote Hlocal)
    as (to_delete & Hrun & _ & Hstay).
  exists to_delete. split; [exact Hrun|].
  apply (Hstay (file "y.csv" "bbb")).
  - right. left.
  - simpl. intros Hin. apply elem_of_cons in Hin as [Hin|Hin]; [done|].
    apply list_elem_of_singleton in Hin. done.
Defined.

(** On the same archive x.csv, which is linked with its local content, is
    neither deleted nor uploaded. *)
Lemma unchanged_files_are_left_alone_scenario :
  unique_names [file "x.csv" "aaa"; file "y.csv" "bbb"] ∧
  unique_names [file "x.csv" "aaa"; file "z.csv" "ccc"] ∧
  remote_inventory (H := scenario_archive) "v2"
    [file "x.csv" "aaa"; file "y.csv" "bbb"] ∧
  local_inventory (H := scenario_archive) "." "upload"
    [file "x.csv" "aaa"; file "z.csv" "ccc"] ∧
  ∃ to_delete to_upload,
    (get_links_to_delete "v2" "." "upload" true
       (start scenario_archive example_draft)).1 = inr to_delete ∧
    (get_files_to_upload "v2" "." "upload"
       (start scenario_archive example_draft)).1 = inr to_upload ∧
    ("x.csv" ∉ to_delete) ∧ ("x.csv" ∉ to_upload).
Proof.
  assert (Hunique : ∀ a b c d : string, a ≠ c → unique_names [file a b; file c d]).
  { intros a b c d Hne. unfold unique_names. simpl. apply NoDup_cons. split.
    - intros Hin. by apply list_elem_of_singleton in Hin.
    - apply NoDup_singleton. }
  assert (Hremote : remote_inventory (H := scenario_archive) "v2"
            [file "x.csv" "aaa"; file "y.csv" "bbb"])
    by (apply example_remote_inventory; lia).
  assert (Hlocal : local_inventory (H := scenario_archive) "." "upload"
            [file "x.csv" "aaa"; file "z.csv" "ccc"])
    by reflexivity.
  split; [by apply (Hunique "x.csv" "aaa" "y.csv" "bbb")|].
  split; [by apply (Hunique "x.csv" "aaa" "z.csv" "ccc")|].
  split; [exact Hremote|]. split; [exact Hlocal|].
  destruct (unchanged_files_are_left_alone (H := scenario_archive)
              "v2" "." "upload" _ _ true (start scenario_archive example_draft)
              (Hunique "x.csv" "aaa" "y.csv" "bbb" ltac:(discriminate))
              (Hunique "x.csv" "aaa" "z.csv" "ccc" ltac:(discriminate))
              Hremote Hlocal)
    as (to_delete & to_upload & Hdel & Hup & Hkept).
  exists to_delete, to_upload. split; [exact Hdel|]. split; [exact Hup|].
  apply (Hkept (file "x.csv" "aaa")); left.
Defined.

(** On the archive whose links change from (a,1) to (b,2) between the two
    reads, with (a,2) in the directory, both a and b are deleted. *)
Lemma get_links_to_delete_reads_twice_changing :
  ∃ to_delete,
    (get_links_to_delete "v2" "." "upload" true
       (start changing_archive changing_script)).1 = inr to_delete ∧
    "a" ∈ to_delete ∧ "b" ∈ to_delete.
Proof.
  destruct (get_links_to_delete_reads_twice (H := changing_archive)
              "v2" "." "upload" [file "a" "1"] [file "b" "2"] [file "a" "2"]
              (start changing_archive changing_script)
              eq_refl eq_refl eq_refl)
    as (to_delete & Hrun & _ & Hin).
  exists to_delete. split; [by rewrite Hrun|].
  split; apply Hin; [left|right]; vm_compute; left.
Defined.

(** ** Reading the answers of the archive *)

Section Decoding.

Context `{Environment}.

Implicit Types (s : ClientState) (d e : gmap string json).

Lemma linked_files_of_well_formed (entries : list (gmap string json)) files rest :
  Forall2 entry_of entries files →
  linked_files_of_entries ((JObj <$> entries) ++ rest) =
  match linked_files_of_entries rest with
  | inl err => inl err
  | inr more => inr (files ++ more)
  end.
Proof.
  induction 1 as [|e f entries files [Hkey Hsum] _ IH].
  - simpl. by destruct (linked_files_of_entries rest).
  - rewrite fmap_cons, <- app_comm_cons. cbn [linked_files_of_entries].
    unfold linked_file_of_entry, getitem. rewrite Hkey, Hsum. simpl.
    destruct f as [n c]. simpl. rewrite IH.
    by destruct (linked_files_of_entries rest).
Qed.

(** X7.  When the answer to the read of the links is a document whose entries
    are well formed, [get_name_to_checksum_for_linked_files] returns the
    files of the entries, in their order, whatever else the document and
    the entries hold, and [get_links] returns their names. *)
Theorem linked_files_are_the_entries record_id s d
    (entries : list (gmap string json)) (files : list FileRecord) :
  checked_json (response_to (get_files_request record_id) s) = inr (JObj d) →
  d !! "entries" = Some (JArr (JObj <$> entries)) →
  Forall2 entry_of entries files →
  get_name_to_checksum_for_linked_files record_id s =
    (inr files, state_after (get_files_request record_id) s) ∧
  get_links record_id s =
    (inr (name <$> files), state_after (get_files_request record_id) s).
Proof.
  intros Hjson Hentries Hfiles.
  assert (Hrun : get_name_to_checksum_for_linked_files record_id s =
            (inr files, state_after (get_files_request record_id) s)).
  { rewrite get_name_to_checksum_for_linked_files_run.
    unfold linked_files_in. rewrite Hjson. unfold getitem. rewrite Hentries.
    simpl. rewrite <- (app_nil_r (JObj <$> entries)).
    rewrite (linked_files_of_well_formed entries files []) by done.
    simpl. by rewrite app_nil_r. }
  split; [exact Hrun|]. unfold get_links, bind. by rewrite Hrun.
Qed.

(** X8.  A document without entries makes [get_name_to_checksum_for_linked_files]
    raise [KeyError] for the entries.  After well-formed entries, an entry
    without key makes it raise [KeyError] for the key, and an entry with a
    key and without checksum [KeyError] for the checksum, whatever the
    entries after it are.  In each case the one request was sent. *)
Theorem linked_files_of_a_malformed_answer record_id s d :
  checked_json (response_to (get_files_request record_id) s) = inr (JObj d) →
  (d !! "entries" = None →
   get_name_to_checksum_for_linked_files record_id s =
     (inl (KeyError "entries"), state_after (get_files_request record_id) s)) ∧
  (∀ (entries : list (gmap string json)) files e rest,
     d !! "entries" = Some (JArr ((JObj <$> entries) ++ JObj e :: rest)) →
     Forall2 entry_of entries files →
     (e !! "key" = None →
      get_name_to_checksum_for_linked_files record_id s =
        (inl (KeyError "key"), state_after (get_files_request record_id) s)) ∧
     (is_Some (e !! "key") → e !! "checksum" = None →
      get_name_to_checksum_for_linked_files record_id s =
        (inl (KeyError "checksum"), state_after (get_files_request record_id) s))).
Proof.
  intros Hjson. split.
  - intros Hnone. rewrite get_name_to_checksum_for_linked_files_run.
    unfold linked_files_in. rewrite Hjson. unfold getitem. by rewrite Hnone.
  - intros entries files e rest Hentries Hfiles.
    assert (Hrun : get_name_to_checksum_for_linked_files record_id s =
              (match linked_files_of_entries (JObj e :: rest) with
               | inl err => inl err
               | inr more => inr (files ++ more)
               end,
               state_after (get_files_request record_id) s)).
    { rewrite get_name_to_checksum_for_linked_files_run.
      unfold linked_files_in. rewrite Hjson. unfold getitem. rewrite Hentries.
      simpl. by rewrite (linked_files_of_well_formed entries files). }
    rewrite Hrun. simpl. unfold linked_file_of_entry, getitem. split.
    + intros Hkey. by rewrite Hkey.
    + intros [k Hkey] Hsum. by rewrite Hkey, Hsum.
Qed.

Lemma latest_versions_of_hits_well_formed (hits : list (gmap string json)) :
  Forall (λ v, is_Some (v !! "id") ∧ is_Some (v !! "is_published")) hits →
  ∃ versions,
    latest_versions_of_hits (JObj <$> hits) = inr (JObj <$> versions) ∧
    Forall2 (λ v version,
               version !! "id" = v !! "id" ∧
               version !! "is_published" = v !! "is_published" ∧
               dom version = ({[ "id"; "is_published" ]} : gset string))
      hits versions.
Proof.
  induction 1 as [|v hits [[id Hid] [pub Hpub]] _ (versions & Hrun & Hall)].
  - by exists [].
  - exists (<["id" := id]> {["is_published" := pub]} :: versions). split.
    + rewrite !fmap_cons. cbn [latest_versions_of_hits].
      unfold latest_version_of, getitem. by rewrite Hid, Hpub, Hrun.
    + constructor; [|done]. split_and!.
      * by rewrite Hid, lookup_insert_eq.
      * rewrite Hpub, lookup_insert_ne by done. by rewrite lookup_singleton_eq.
      * by rewrite dom_insert_L, dom_singleton_L.
Qed.

(** X9.  [get_latest_versions] sends one request, for at most 1000000 records
    and their latest versions only, and raises the HTTP error of a failed
    answer.  When the hits of the answer all have an id and a publication
    flag, it returns one document per hit, in the order of the hits, with
    that id, that flag and nothing else. *)
Theorem get_latest_versions_result s :
  (get_latest_versions s).2 = state_after latest_versions_request s ∧
  (ok (response_to latest_versions_request s) = false →
   (get_latest_versions s).1 =
     inl (HTTPError (response_to latest_versions_request s))) ∧
  (∀ d h (hits : list (gmap string json)),
     checked_json (response_to latest_versions_request s) = inr (JObj d) →
     d !! "hits" = Some (JObj h) →
     h !! "hits" = Some (JArr (JObj <$> hits)) →
     Forall (λ v, is_Some (v !! "id") ∧ is_Some (v !! "is_published")) hits →
     ∃ versions,
       (get_latest_versions s).1 = inr (JObj <$> versions) ∧
       Forall2 (λ v version,
                  version !! "id" = v !! "id" ∧
                  version !! "is_published" = v !! "is_published" ∧
                  dom version = ({[ "id"; "is_published" ]} : gset string))
         hits versions).
Proof.
  assert (Hrun : get_latest_versions s =
    (match checked_json (response_to latest_versions_request s) with
     | inl err => inl err
     | inr response =>
         match getitem response "hits" with
         | inl err => inl err
         | inr hits =>
             match getitem hits "hits" with
             | inl err => inl err
             | inr latest_versions => latest_versions_of latest_versions
             end
         end
     end,
     state_after latest_versions_request s)).
  { assert (Hpath :
      "/api/user/records?allversions=" +:+ "False" +:+ "&size="
        +:+ pretty 1000000%Z
      = "/api/user/records?allversions=False&size=1000000")
      by (vm_compute; reflexivity).
    assert (Huser : get_user_records false 1000000 s =
              (checked_json (response_to latest_versions_request s),
               state_after latest_versions_request s)).
    { unfold latest_versions_request. rewrite <- Hpath.
      apply checked_json_run. }
    unfold get_latest_versions, bind. rewrite Huser. unfold lift.
    destruct (checked_json _); [done|]. destruct (getitem _ _); [done|].
    by destruct (getitem _ _). }
  rewrite Hrun. simpl. split; [done|]. split.
  - intros Herror. unfold ok, checked_json in *.
    by destruct (is_error_status _).
  - intros d h hits Hjson Hd Hh Hhits. rewrite Hjson. unfold getitem.
    rewrite Hd, Hh. simpl. by apply latest_versions_of_hits_well_formed.
Qed.

End Decoding.

(** On the answer with one entry that also has a size, the linked file is
    (a,1). *)
Lemma linked_files_are_the_entries_rich :
  checked_json (response_to (get_files_request "v2")
                  (start changing_archive rich_script))
    = inr (JObj (<["entries" := JArr [JObj rich_entry]]>
                   {["enabled" := JBool true]})) ∧
  Forall2 entry_of [rich_entry] [file "a" "1"] ∧
  (get_name_to_checksum_for_linked_files "v2"
     (start changing_archive rich_script)).1 = inr [file "a" "1"] ∧
  (get_links "v2" (start changing_archive rich_script)).1 = inr ["a"].
Proof.
  assert (Hentries : Forall2 entry_of [rich_entry] [file "a" "1"]).
  { constructor; [|constructor]. split; reflexivity. }
  split; [reflexivity|]. split; [exact Hentries|].
  destruct (linked_files_are_the_entries (H := changing_archive) "v2"
              (start changing_archive rich_script)
              (<["entries" := JArr [JObj rich_entry]]> {["enabled" := JBool true]})
              [rich_entry] [file "a" "1"] eq_refl eq_refl Hentries)
    as [Hfiles Hlinks].
  by rewrite Hfiles, Hlinks.
Defined.

(** On an archive that answers with an empty document, the read of the
    linked files raises [KeyError] for the entries. *)
Lemma linked_files_of_a_malformed_answer_empty :
  checked_json (response_to (get_files_request "v2") (start changing_archive []))
    = inr (JObj ∅) ∧
  (get_name_to_checksum_for_linked_files "v2" (start changing_archive [])).1
    = inl (KeyError "entries").
Proof.
  split; [reflexivity|].
  destruct (linked_files_of_a_malformed_answer (H := changing_archive) "v2"
              (start changing_archive []) ∅ eq_refl) as [Hmissing _].
  by rewrite Hmissing.
Defined.

(** On the answer with one hit that has an id, a publication flag and a
    title, the latest version has the id and the flag. *)
Lemma get_latest_versions_result_one_hit :
  ∃ version,
    (get_latest_versions (start changing_archive one_hit_script)).1
      = inr [JObj version] ∧
    version !! "id" = Some (JStr "v1") ∧
    version !! "is_published" = Some (JBool true) ∧
    version !! "title" = None.
Proof.
  destruct (get_latest_versions_result (H := changing_archive)
              (start changing_archive one_hit_script))
    as (_ & _ & Hhits).
  destruct (Hhits
              {["hits" :=
                 JObj {["hits" :=
                   JArr [JObj (<["id" := JStr "v1"]>
                               (<["is_published" := JBool true]>
                                {["title" := JStr "Cells"]}))]]}]}
              {["hits" :=
                 JArr [JObj (<["id" := JStr "v1"]>
                             (<["is_published" := JBool true]>
                              {["title" := JStr "Cells"]}))]]}
              [<["id" := JStr "v1"]>
                 (<["is_published" := JBool true]> {["title" := JStr "Cells"]})]
              eq_refl eq_refl eq_refl)
    as (versions & Hrun & Hall).
  { constructor; [|constructor]. split; eexists; reflexivity. }
  apply Forall2_cons_inv_l in Hall as (version & rest & (Hid & Hpub & Hdom) & Hrest & ->).
  apply Forall2_nil_inv_l in Hrest as ->.
  exists version. split; [exact Hrun|]. split; [by rewrite Hid|].
  split; [by rewrite Hpub|].
  apply not_elem_of_dom. rewrite Hdom.
  intros Hin. apply elem_of_union in Hin as [Hin|Hin];
    apply elem_of_singleton in Hin; discriminate Hin.
Defined.

(** ** Where a failure leaves the draft *)

Section Partial.

Context `{Environment}.

Implicit Types (s : ClientState) (d : gmap string json).

Lemma for_each_app {A} (l1 l2 : list A) (body : A → M unit) s :
  for_each (l1 ++ l2) body s = (for_each l1 body ;;; for_each l2 body) s.
Proof.
  revert s. induction l1 as [|x l1 IH]; intros s; simpl.
  - done.
  - unfold bind. destruct (body x s) as [[e|u] s1]; [done|].
    rewrite IH. reflexivity.
Qed.

(** X10.  [delete_links] stops at the first deletion that fails: the links before
    it were deleted, the [HTTPError] of the failed deletion is raised, and
    no deletion is asked for the links after it. *)
Theorem delete_links_stops_at_the_first_failure
    record_id (before : list string) (filename : string) (after : list string)
    s s1 :
  delete_links record_id before s = (inr (), s1) →
  ok (response_to (delete_filename_request record_id filename) s1) = false →
  delete_links record_id (before ++ filename :: after) s =
    (inl (HTTPError (response_to (delete_filename_request record_id filename) s1)),
     state_after (delete_filename_request record_id filename) s1) ∧
  log (delete_links record_id (before ++ filename :: after) s).2 =
    log s ++ (delete_filename_request record_id <$> before)
          ++ [delete_filename_request record_id filename].
Proof.
  intros Hbefore Herror.
  assert (Hrun : delete_links record_id (before ++ filename :: after) s =
    (inl (HTTPError (response_to (delete_filename_request record_id filename) s1)),
     state_after (delete_filename_request record_id filename) s1)).
  { unfold delete_links in *. rewrite for_each_app. unfold bind at 1.
    rewrite Hbefore. simpl. unfold bind at 1.
    change (delete_filename record_id filename s1) with
      ((response <- send (delete_filename_request record_id filename) ;;
        raise_for_status response) s1).
    rewrite checked_run. unfold checked, ok in *.
    by destruct (is_error_status _). }
  split; [exact Hrun|]. rewrite Hrun. simpl.
  destruct (traces_delete_links record_id before s) as (sent & Hlog & Hsent).
  rewrite Hbefore in Hlog, Hsent. simpl in *. subst sent.
  by rewrite Hlog, app_assoc.
Qed.

(** X11.  [upload_files] registers the names of all the files before it opens
    the first one: when that file cannot be opened, [OSError] is raised
    after the registration, and no content was sent. *)
Theorem upload_files_registers_before_it_opens
    record_id base_dir_path upload_dir_path filename (filenames : list string)
    s registered :
  checked_json
    (response_to (post_files_request record_id (filename :: filenames)) s)
    = inr registered →
  file_exists (os_path_join [base_dir_path; upload_dir_path; filename]) = false →
  upload_files record_id base_dir_path upload_dir_path (filename :: filenames) s =
    (inl (OSError (os_path_join [base_dir_path; upload_dir_path; filename])),
     state_after (post_files_request record_id (filename :: filenames)) s).
Proof.
  intros Hregistered Hmissing. unfold upload_files, bind at 1.
  change (post_files record_id (filename :: filenames) s) with
    ((response <- send (post_files_request record_id (filename :: filenames)) ;;
      raise_for_status response ;;; response_json response) s).
  rewrite checked_json_run, Hregistered. simpl.
  unfold bind at 1 2, put_content, bind at 1. by rewrite Hmissing.
Qed.

(** X12.  With no file to upload, [upload_files] still sends the registration,
    with an empty list of names, and nothing else; it raises when that
    request fails. *)
Theorem upload_files_of_nothing record_id base_dir_path upload_dir_path s :
  upload_files record_id base_dir_path upload_dir_path [] s =
    (match checked_json (response_to (post_files_request record_id []) s) with
     | inl e => inl e
     | inr _ => inr ()
     end,
     state_after (post_files_request record_id []) s) ∧
  payload (post_files_request record_id []) = JsonPayload (JArr []).
Proof.
  split; [|done]. unfold upload_files, bind.
  change (post_files record_id [] s) with
    ((response <- send (post_files_request record_id []) ;;
      raise_for_status response ;;; response_json response) s).
  rewrite checked_json_run.
  by destruct (checked_json (response_to (post_files_request record_id []) s)).
Qed.

(** X13.  [insert_publication_date] writes nothing unless the draft it reads is a
    document whose metadata are a document: without metadata it raises
    [KeyError], with metadata of another kind or with a draft of another
    kind [TypeError], in each case after the read alone. *)
Theorem insert_publication_date_needs_metadata record_id s j :
  checked_json (response_to (get_draft_request record_id) s) = inr j →
  (∀ d, j = JObj d → d !! "metadata" = None →
        insert_publication_date record_id s =
          (inl (KeyError "metadata"), state_after (get_draft_request record_id) s)) ∧
  (∀ d v, j = JObj d → d !! "metadata" = Some v → (∀ m, v ≠ JObj m) →
          insert_publication_date record_id s =
            (inl TypeError, state_after (get_draft_request record_id) s)) ∧
  ((∀ d, j ≠ JObj d) →
   insert_publication_date record_id s =
     (inl TypeError, state_after (get_draft_request record_id) s)).
Proof.
  intros Hget. unfold insert_publication_date, bind.
  rewrite get_draft_run, Hget. unfold lift, getitem. split_and!.
  - intros d -> Hnone. by rewrite Hnone.
  - intros d v -> Hsome Hkind. rewrite Hsome. simpl.
    destruct v; try done. by destruct (Hkind m).
  - intros Hkind. destruct j; try done. by destruct (Hkind m).
Qed.

End Partial.

(** On the archive that accepts the first request and refuses the second,
    the deletion of the links a, b and c deletes a, fails on b and does not
    ask for c. *)
Lemma delete_links_stops_at_the_first_failure_example :
  (delete_links "v2" ["a"; "b"; "c"] (start changing_archive stopping_script)).1
    = inl (HTTPError {| status_code := 404; content := None |}) ∧
  log (delete_links "v2" ["a"; "b"; "c"]
         (start changing_archive stopping_script)).2
    = [delete_filename_request "v2" "a"; delete_filename_request "v2" "b"].
Proof.
  destruct (delete_links_stops_at_the_first_failure (H := changing_archive)
              "v2" ["a"] "b" ["c"] (start changing_archive stopping_script)
              (state_after (delete_filename_request "v2" "a")
                 (start changing_archive stopping_script))
              eq_refl eq_refl)
    as [Hrun Hlog].
  split; [exact (f_equal fst Hrun)|exact Hlog].
Defined.

(** Against a directory whose files cannot be opened, the upload of a and b
    registers both names and raises for a. *)
Lemma upload_files_registers_before_it_opens_example :
  upload_files "v2" "." "upload" ["a"; "b"]
    (start unreadable_archive new_draft_script)
  = (inl (OSError "./upload/a"),
     @Build_ClientState unreadable_archive []
       [post_files_request "v2" ["a"; "b"]]).
Proof.
  exact (upload_files_registers_before_it_opens (H := unreadable_archive)
           "v2" "." "upload" "a" ["b"]
           (start unreadable_archive new_draft_script)
           (JObj {["id" := JStr "v2"]}) eq_refl eq_refl).
Defined.

(** On an archive that answers with an empty document, the stamp raises
    [KeyError] for the metadata after the read. *)
Lemma insert_publication_date_needs_metadata_example :
  insert_publication_date "v2" (start changing_archive [])
  = (inl (KeyError "metadata"),
     @Build_ClientState changing_archive [] [get_draft_request "v2"]).
Proof.
  destruct (insert_publication_date_needs_metadata (H := changing_archive)
              "v2" (start changing_archive []) (JObj ∅) eq_refl)
    as (Hmissing & _ & _).
  exact (Hmissing ∅ eq_refl eq_refl).
Defined.

(** ** The files to upload *)

Section Upload.

Context `{Environment}.

(** X6.  [get_files_to_upload] returns names of the upload directory, in the
    order of the directory; when the names of the directory are unique, no
    name is returned twice. *)
Theorem files_to_upload_follow_the_directory
    record_id base_dir_path upload_dir_path (remote local : list FileRecord) s :
  remote_inventory record_id remote →
  local_inventory base_dir_path upload_dir_path local →
  ∃ to_upload,
    (get_files_to_upload record_id base_dir_path upload_dir_path s).1
      = inr to_upload ∧
    to_upload `sublist_of` (name <$> local) ∧
    (unique_names local → NoDup to_upload).
Proof.
  intros Hremote Hlocal. exists (files_to_upload local remote).
  split; [by rewrite (get_files_to_upload_run _ _ _ remote local)|].
  assert (Hsub : files_to_upload local remote `sublist_of` (name <$> local)).
  { unfold files_to_upload. apply fmap_sublist, sublist_filter. }
  split; [exact Hsub|]. intros Hunique. by apply (sublist_NoDup _ _ Hunique).
Qed.

End Upload.

(** On the archive with the links x.csv and y.csv against a directory with
    x.csv and z.csv, the file to upload is z.csv. *)
Lemma files_to_upload_follow_the_directory_scenario :
  remote_inventory (H := scenario_archive) "v2"
    [file "x.csv" "aaa"; file "y.csv" "bbb"] ∧
  local_inventory (H := scenario_archive) "." "upload"
    [file "x.csv" "aaa"; file "z.csv" "ccc"] ∧
  ∃ to_upload,
    (get_files_to_upload "v2" "." "upload"
       (start scenario_archive example_draft)).1 = inr to_upload ∧
    to_upload `sublist_of` ["x.csv"; "z.csv"].
Proof.
  assert (Hremote : remote_inventory (H := scenario_archive) "v2"
            [file "x.csv" "aaa"; file "y.csv" "bbb"])
    by (apply example_remote_inventory; lia).
  assert (Hlocal : local_inventory (H := scenario_archive) "." "upload"
            [file "x.csv" "aaa"; file "z.csv" "ccc"])
    by reflexivity.
  split; [exact Hremote|]. split; [exact Hlocal|].
  destruct (files_to_upload_follow_the_directory (H := scenario_archive)
              "v2" "." "upload" _ _ (start scenario_archive example_draft)
              Hremote Hlocal)
    as (to_upload & Hrun & Hsub & _).
  exists to_upload. split; [exact Hrun|exact Hsub].
Defined.

(** ** The decisions only read *)

Section ReadOnly.

Context `{Environment}.

Lemma traces_prefix {A} (m : M A) (L : list Request) s :
  traces m (λ _ L', L' = L) →
  ∃ sent, log (m s).2 = log s ++ sent ∧ sent `prefix_of` L.
Proof.
  intros Hm. destruct (Hm s) as (sent & Hlog & Hsent).
  exists sent. split; [done|]. destruct ((m s).1) as [e|a].
  - by destruct Hsent as (_ & L' & -> & Hprefix).
  - by subst sent.
Qed.

(** X5.  The methods that decide what to delete and what to upload change
    nothing on the archive: whatever it answers and whether they return or
    raise, the only request they send is the read of the links of the
    draft, once, and twice at most for [get_links_to_delete] under
    [force]. *)
Theorem decisions_only_read
    record_id base_dir_path upload_dir_path (force : bool) s :
  (∃ sent,
     log (get_links record_id s).2 = log s ++ sent ∧
     sent `prefix_of` [get_files_request record_id]) ∧
  (∃ sent,
     log (get_missing_files record_id base_dir_path upload_dir_path s).2
       = log s ++ sent ∧
     sent `prefix_of` [get_files_request record_id]) ∧
  (∃ sent,
     log (get_changed_content_files record_id base_dir_path upload_dir_path s).2
       = log s ++ sent ∧
     sent `prefix_of` [get_files_request record_id]) ∧
  (∃ sent,
     log (get_files_to_upload record_id base_dir_path upload_dir_path s).2
       = log s ++ sent ∧
     sent `prefix_of` [get_files_request record_id]) ∧
  (∃ sent,
     log (get_links_to_delete record_id base_dir_path upload_dir_path force s).2
       = log s ++ sent ∧
     sent `prefix_of`
       [get_files_request record_id] ++
       (if force then [get_files_request record_id] else [])).
Proof.
  split_and!; apply traces_prefix.
  - apply traces_get_links.
  - apply traces_get_missing_files.
  - apply traces_get_changed_content_files.
  - apply traces_get_files_to_upload.
  - apply traces_get_links_to_delete.
Qed.

End ReadOnly.

(** ** The order of an upload *)

Section UploadOrder.

Context `{Environment}.

Lemma traces_whole {A} (m : M A) (L : list Request) s :
  traces m (λ _ L', L' = L) →
  ∃ sent,
    log (m s).2 = log s ++ sent ∧ sent `prefix_of` L ∧
    (∀ a, (m s).1 = inr a → sent = L).
Proof.
  intros Hm. destruct (Hm s) as (sent & Hlog & Hsent).
  exists sent. split; [done|]. destruct ((m s).1) as [e|a].
  - destruct Hsent as (_ & L' & -> & Hprefix). split; [done|]. by intros a [=].
  - subst sent. split; [done|]. by intros a' _.
Qed.

(** X15.  [upload_files] sends the registration of the names of all the
    files, and then, for each file in the order of the list, its content
    and its commit.  When it returns these are all its requests; when it
    raises it sent a beginning of this sequence. *)
Theorem upload_files_request_order
    record_id base_dir_path upload_dir_path (filenames : list string) s :
  ∃ sent,
    log (upload_files record_id base_dir_path upload_dir_path filenames s).2
      = log s ++ sent ∧
    sent `prefix_of`
      upload_requests record_id base_dir_path upload_dir_path filenames ∧
    (∀ u,
       (upload_files record_id base_dir_path upload_dir_path filenames s).1
         = inr u →
       sent = upload_requests record_id base_dir_path upload_dir_path filenames).
Proof. apply traces_whole, traces_upload_files. Qed.

End UploadOrder.

(** X15 on the archive with the draft v2: the upload of a and b sends the
    registration of both, then the content and the commit of a, then those
    of b. *)
Lemma upload_files_request_order_example :
  (upload_files "v2" "." "upload" ["a"; "b"]
     (start scenario_archive example_draft)).1 = inr () ∧
  log (upload_files "v2" "." "upload" ["a"; "b"]
         (start scenario_archive example_draft)).2
    = [post_files_request "v2" ["a"; "b"];
       put_content_request (H := scenario_archive) "v2" "." "upload" "a";
       post_commit_request "v2" "a";
       put_content_request (H := scenario_archive) "v2" "." "upload" "b";
       post_commit_request "v2" "b"].
Proof.
  assert (Hrun :
    (upload_files (H := scenario_archive) "v2" "." "upload" ["a"; "b"]
       (start scenario_archive example_draft)).1 = inr ())
    by (vm_compute; reflexivity).
  split; [exact Hrun|].
  destruct (upload_files_request_order (H := scenario_archive)
              "v2" "." "upload" ["a"; "b"] (start scenario_archive example_draft))
    as (sent & Hlog & _ & Hall).
  rewrite Hlog, (Hall () Hrun). reflexivity.
Defined.
